(** * nixos-hydra-upgrade: the upgrade decision pipeline

    A shallow embedding of [cmd/root.go] (the [Run] closure of [NewRootCmd])
    and of the [nix] package's [GetFlakeMetadata], together with the
    properties of the gating sequence: build completion, build status,
    flake freshness, canary health checks, rebuild and optional reboot.

    Go strings are byte sequences and are modelled by [string]; Go's [int]
    and [int64] are modelled by [Z] (the code only compares them, and the
    decoder keeps [LastModified] within int64).  Flag handling and the
    loading of the configuration ([PreRunE]) come before [Run] and are not
    part of this development: [Run] starts from a configuration value. *)

From Stdlib Require Import ZArith List String Ascii Bool Lia DecimalString.
Import ListNotations.
Open Scope string_scope.
Open Scope Z_scope.
Set Warnings "-register-all,-abstract-large-number".

(** ** Go's [error] values seen by this program *)

Inductive error : Type :=
| ExitError (code : Z)                           (* os/exec: the command ran and exited with [code] *)
| ExecError (msg : string)                       (* os/exec: any other failure of [cmd.Output] *)
| SyntaxError                                    (* encoding/json: invalid JSON text *)
| UnmarshalTypeError (value : string) (field : string) (* encoding/json: JSON value unfit for the Go field *)
| OtherError (msg : string).

(** ** package nix: FlakeMetadata *)

Record FlakeMetadata : Type := {
  LastModified : Z;      (* int64, unix timestamp; json:"lastModified" *)
  OriginalUrl : string   (* flake url;             json:"originalUrl"  *)
}.

(** The zero value of [var metadata FlakeMetadata]. *)
Definition zeroFlakeMetadata : FlakeMetadata :=
  {| LastModified := 0; OriginalUrl := "" |}.

(** ** encoding/json, as used by [json.Unmarshal(output, &metadata)] *)

Module json.

Inductive Value : Type :=
| Null
| Bool (b : bool)
| Number (lit : string)                 (* the literal, kept as written *)
| Str (s : string)                      (* the unquoted string *)
| Array (vs : list Value)
| Object (ms : list (string * Value)).  (* members in input order, duplicates kept *)

Definition byte (c : ascii) : Z := Z.of_N (N_of_ascii c).
Definition chr (z : Z) : ascii := ascii_of_N (Z.to_N z).

(** The double quote, U+0022. *)
Definition quote : ascii := Eval compute in chr 34.

Definition isSpace (c : ascii) : bool :=
  (c =? " ")%char || (byte c =? 9) || (byte c =? 13) || (byte c =? 10).

Definition isDigit (c : ascii) : bool := (48 <=? byte c) && (byte c <=? 57).
Definition isDigit19 (c : ascii) : bool := (49 <=? byte c) && (byte c <=? 57).

Definition isHex (c : ascii) : bool :=
  isDigit c || ((97 <=? byte c) && (byte c <=? 102))
            || ((65 <=? byte c) && (byte c <=? 70)).

Definition hexval (c : ascii) : Z :=
  if isDigit c then byte c - 48
  else if (97 <=? byte c) && (byte c <=? 102) then byte c - 97 + 10
  else byte c - 65 + 10.

(** *** Unquoting a string literal (decode.go, [unquoteBytes]) *)

(** [getu4 s]: the code unit of a leading [\uXXXX], if [s] starts with one. *)
Definition getu4 (s : string) : option Z :=
  match s with
  | String b (String u (String h1 (String h2 (String h3 (String h4 _))))) =>
      if (b =? "\")%char && (u =? "u")%char
         && isHex h1 && isHex h2 && isHex h3 && isHex h4
      then Some (hexval h1 * 4096 + hexval h2 * 256 + hexval h3 * 16 + hexval h4)
      else None
  | _ => None
  end.

Definition IsSurrogate (r : Z) : bool := (55296 <=? r) && (r <? 57344).

Definition ReplacementChar : Z := 65533.

(** utf16.DecodeRune *)
Definition utf16_DecodeRune (r1 r2 : Z) : Z :=
  if (55296 <=? r1) && (r1 <? 56320) && (56320 <=? r2) && (r2 <? 57344)
  then (Z.lor (Z.shiftl (r1 - 55296) 10) (r2 - 56320)) + 65536
  else ReplacementChar.

(** utf8.EncodeRune, as the bytes written. *)
Definition EncodeRune (r0 : Z) : string :=
  let r := if (r0 <? 0) || (1114111 <? r0) || IsSurrogate r0
           then ReplacementChar else r0 in
  if r <=? 127 then String (chr r) ""
  else if r <=? 2047 then
    String (chr (Z.lor 192 (Z.shiftr r 6)))
   (String (chr (Z.lor 128 (Z.land r 63))) "")
  else if r <=? 65535 then
    String (chr (Z.lor 224 (Z.shiftr r 12)))
   (String (chr (Z.lor 128 (Z.land (Z.shiftr r 6) 63)))
   (String (chr (Z.lor 128 (Z.land r 63))) ""))
  else
    String (chr (Z.lor 240 (Z.shiftr r 18)))
   (String (chr (Z.lor 128 (Z.land (Z.shiftr r 12) 63)))
   (String (chr (Z.lor 128 (Z.land (Z.shiftr r 6) 63)))
   (String (chr (Z.lor 128 (Z.land r 63))) ""))).

Definition between (lo hi : Z) (c : ascii) : bool :=
  (lo <=? byte c) && (byte c <=? hi).

(** [utf8_size s]: the length of the well-formed multi-byte UTF-8 sequence
    at the head of [s], or 0 when there is none (utf8.DecodeRune then yields
    RuneError with width 1). *)
Definition utf8_size (s : string) : nat :=
  match s with
  | String b0 (String b1 t) =>
      if between 194 223 b0 then (if between 128 191 b1 then 2%nat else 0%nat)
      else
        let lo := if byte b0 =? 224 then 160 else if byte b0 =? 240 then 144 else 128 in
        let hi := if byte b0 =? 237 then 159 else if byte b0 =? 244 then 143 else 191 in
        if between 224 239 b0 then
          match t with
          | String b2 _ =>
              if between lo hi b1 && between 128 191 b2 then 3%nat else 0%nat
          | _ => 0%nat
          end
        else if between 240 244 b0 then
          match t with
          | String b2 (String b3 _) =>
              if between lo hi b1 && between 128 191 b2 && between 128 191 b3
              then 4%nat else 0%nat
          | _ => 0%nat
          end
        else 0%nat
  | _ => 0%nat
  end.

Definition unescape (e : ascii) : ascii :=
  if (e =? "b")%char then chr 8
  else if (e =? "f")%char then chr 12
  else if (e =? "n")%char then chr 10
  else if (e =? "r")%char then chr 13
  else if (e =? "t")%char then chr 9
  else e.

(** The loop of [unquoteBytes] over the bytes between the quotes of a
    literal the scanner accepted.  [copy] bytes are still to be copied as
    they are (the tail of a UTF-8 sequence), [drop] bytes are still to be
    skipped (the tail of an escape already decoded). *)
Fixpoint unquote (copy drop : nat) (s : string) : string :=
  match s with
  | "" => ""
  | String c r =>
      match copy, drop with
      | S k, _ => String c (unquote k drop r)
      | O, S k => unquote O k r
      | O, O =>
          if (c =? "\")%char then
            match r with
            | String e _ =>
                if (e =? "u")%char then
                  match getu4 s with
                  | Some rr =>
                      if IsSurrogate rr then
                        let rr1 := match getu4 (substring 6 6 s) with
                                   | Some x => x | None => -1 end in
                        let dec := utf16_DecodeRune rr rr1 in
                        if dec =? ReplacementChar
                        then EncodeRune ReplacementChar ++ unquote O 5 r
                        else EncodeRune dec ++ unquote O 11 r
                      else EncodeRune rr ++ unquote O 5 r
                  | None => ""
                  end
                else String (unescape e) (unquote O 1 r)
            | "" => ""
            end
          else if byte c <? 128 then String c (unquote O O r)
          else
            match utf8_size s with
            | O => EncodeRune ReplacementChar ++ unquote O O r
            | S n => String c (unquote n O r)
            end
      end
  end.

(** *** The scanner (scanner.go), building the value as it goes *)

Inductive Frame : Type :=
| parseObjectKey (ms : list (string * Value)) (key : string)
| parseObjectValue (ms : list (string * Value)) (key : string)
| parseArrayValue (vs : list Value).

Inductive Step : Type :=
| stateBeginValueOrEmpty | stateBeginValue
| stateBeginStringOrEmpty | stateBeginString
| stateEndValue | stateEndTop
| stateInString | stateInStringEsc | stateInStringEscU (seen : nat)
| stateNeg | state1 | state0 | stateDot | stateDot0
| stateE | stateESign | stateE0
| stateLit (rest : string) (v : Value).   (* stateT, stateTr, ... stateNul *)

Record scanner : Type := {
  step : Step;
  parseState : list Frame;
  lit : string;              (* bytes of the literal being read *)
  top : option Value         (* the completed top-level value *)
}.

Definition maxNestingDepth : Z := 10000.

Definition with_step (st : Step) (s : scanner) : scanner :=
  {| step := st; parseState := parseState s; lit := lit s; top := top s |}.

Definition snoc (s : string) (c : ascii) : string := s ++ String c "".

Definition grow (st : Step) (c : ascii) (s : scanner) : scanner :=
  {| step := st; parseState := parseState s; lit := snoc (lit s) c; top := top s |}.

(** A value is complete: hand it to the enclosing container. *)
Definition endValue (v : Value) (s : scanner) : scanner :=
  match parseState s with
  | [] => {| step := stateEndValue; parseState := []; lit := ""; top := Some v |}
  | f :: st =>
      let f' := match f with
                | parseObjectKey ms k =>
                    parseObjectKey ms (match v with Str k' => k' | _ => k end)
                | parseObjectValue ms k => parseObjectValue (ms ++ [(k, v)]) k
                | parseArrayValue vs => parseArrayValue (vs ++ [v])
                end in
      {| step := stateEndValue; parseState := f' :: st; lit := ""; top := top s |}
  end.

Definition pushParseState (f : Frame) (st : Step) (s : scanner) : option scanner :=
  let ps := f :: parseState s in
  if Z.of_nat (List.length ps) <=? maxNestingDepth
  then Some {| step := st; parseState := ps; lit := ""; top := top s |}
  else None.

Definition popParseState (v : Value) (st : list Frame) (s : scanner) : scanner :=
  let s' := endValue v {| step := step s; parseState := st; lit := ""; top := top s |} in
  match st with
  | [] => with_step stateEndTop s'
  | _ => s'
  end.

Definition do_stateEndTop (s : scanner) (c : ascii) : option scanner :=
  if isSpace c then Some (with_step stateEndTop s) else None.

Definition do_stateEndValue (s : scanner) (c : ascii) : option scanner :=
  match parseState s with
  | [] => do_stateEndTop s c
  | f :: st =>
      if isSpace c then Some (with_step stateEndValue s)
      else
        match f with
        | parseObjectKey ms k =>
            if (c =? ":")%char
            then Some {| step := stateBeginValue; parseState := parseObjectValue ms k :: st;
                         lit := ""; top := top s |}
            else None
        | parseObjectValue ms k =>
            if (c =? ",")%char
            then Some {| step := stateBeginString; parseState := parseObjectKey ms "" :: st;
                         lit := ""; top := top s |}
            else if (c =? "}")%char then Some (popParseState (Object ms) st s)
            else None
        | parseArrayValue vs =>
            if (c =? ",")%char then Some (with_step stateBeginValue s)
            else if (c =? "]")%char then Some (popParseState (Array vs) st s)
            else None
        end
  end.

Definition do_stateBeginValue (s : scanner) (c : ascii) : option scanner :=
  if isSpace c then Some s
  else if (c =? "{")%char then pushParseState (parseObjectKey [] "") stateBeginStringOrEmpty s
  else if (c =? "[")%char then pushParseState (parseArrayValue []) stateBeginValueOrEmpty s
  else if (c =? quote)%char then Some (with_step stateInString s)
  else if (c =? "-")%char then Some (grow stateNeg c s)
  else if (c =? "0")%char then Some (grow state0 c s)
  else if (c =? "t")%char then Some (with_step (stateLit "rue" (Bool true)) s)
  else if (c =? "f")%char then Some (with_step (stateLit "alse" (Bool false)) s)
  else if (c =? "n")%char then Some (with_step (stateLit "ull" Null) s)
  else if isDigit19 c then Some (grow state1 c s)
  else None.

Definition do_stateBeginValueOrEmpty (s : scanner) (c : ascii) : option scanner :=
  if isSpace c then Some s
  else if (c =? "]")%char then do_stateEndValue s c
  else do_stateBeginValue s c.

Definition do_stateBeginString (s : scanner) (c : ascii) : option scanner :=
  if isSpace c then Some s
  else if (c =? quote)%char then Some (with_step stateInString s)
  else None.

Definition do_stateBeginStringOrEmpty (s : scanner) (c : ascii) : option scanner :=
  if isSpace c then Some s
  else if (c =? "}")%char then
    match parseState s with
    | parseObjectKey ms k :: st =>
        do_stateEndValue {| step := step s; parseState := parseObjectValue ms k :: st;
                            lit := lit s; top := top s |} c
    | _ => None
    end
  else do_stateBeginString s c.

Definition do_stateInString (s : scanner) (c : ascii) : option scanner :=
  if (c =? quote)%char then Some (endValue (Str (unquote O O (lit s))) s)
  else if (c =? "\")%char then Some (grow stateInStringEsc c s)
  else if byte c <? 32 then None
  else Some (grow stateInString c s).

Definition do_stateInStringEsc (s : scanner) (c : ascii) : option scanner :=
  if existsb (Ascii.eqb c) ["b"; "f"; "n"; "r"; "t"; "\"; "/"; quote]%char
  then Some (grow stateInString c s)
  else if (c =? "u")%char then Some (grow (stateInStringEscU 0) c s)
  else None.

Definition do_stateInStringEscU (seen : nat) (s : scanner) (c : ascii) : option scanner :=
  if isHex c
  then Some (grow (if (seen =? 3)%nat then stateInString else stateInStringEscU (S seen)) c s)
  else None.

Definition endNumber (s : scanner) (c : ascii) : option scanner :=
  do_stateEndValue (endValue (Number (lit s)) s) c.

Definition do_stateNeg (s : scanner) (c : ascii) : option scanner :=
  if (c =? "0")%char then Some (grow state0 c s)
  else if isDigit19 c then Some (grow state1 c s)
  else None.

Definition do_state0 (s : scanner) (c : ascii) : option scanner :=
  if (c =? ".")%char then Some (grow stateDot c s)
  else if (c =? "e")%char || (c =? "E")%char then Some (grow stateE c s)
  else endNumber s c.

Definition do_state1 (s : scanner) (c : ascii) : option scanner :=
  if isDigit c then Some (grow state1 c s) else do_state0 s c.

Definition do_stateDot (s : scanner) (c : ascii) : option scanner :=
  if isDigit c then Some (grow stateDot0 c s) else None.

Definition do_stateDot0 (s : scanner) (c : ascii) : option scanner :=
  if isDigit c then Some (grow stateDot0 c s)
  else if (c =? "e")%char || (c =? "E")%char then Some (grow stateE c s)
  else endNumber s c.

Definition do_stateESign (s : scanner) (c : ascii) : option scanner :=
  if isDigit c then Some (grow stateE0 c s) else None.

Definition do_stateE (s : scanner) (c : ascii) : option scanner :=
  if (c =? "+")%char || (c =? "-")%char then Some (grow stateESign c s)
  else do_stateESign s c.

Definition do_stateE0 (s : scanner) (c : ascii) : option scanner :=
  if isDigit c then Some (grow stateE0 c s) else endNumber s c.

Definition do_stateLit (rest : string) (v : Value) (s : scanner) (c : ascii) : option scanner :=
  match rest with
  | String x "" => if (c =? x)%char then Some (endValue v s) else None
  | String x rest' => if (c =? x)%char then Some (with_step (stateLit rest' v) s) else None
  | "" => None
  end.

Definition scan_step (s : scanner) (c : ascii) : option scanner :=
  match step s with
  | stateBeginValueOrEmpty => do_stateBeginValueOrEmpty s c
  | stateBeginValue => do_stateBeginValue s c
  | stateBeginStringOrEmpty => do_stateBeginStringOrEmpty s c
  | stateBeginString => do_stateBeginString s c
  | stateEndValue => do_stateEndValue s c
  | stateEndTop => do_stateEndTop s c
  | stateInString => do_stateInString s c
  | stateInStringEsc => do_stateInStringEsc s c
  | stateInStringEscU n => do_stateInStringEscU n s c
  | stateNeg => do_stateNeg s c
  | state1 => do_state1 s c
  | state0 => do_state0 s c
  | stateDot => do_stateDot s c
  | stateDot0 => do_stateDot0 s c
  | stateE => do_stateE s c
  | stateESign => do_stateESign s c
  | stateE0 => do_stateE0 s c
  | stateLit rest v => do_stateLit rest v s c
  end.

Definition reset : scanner :=
  {| step := stateBeginValue; parseState := []; lit := ""; top := None |}.

Fixpoint scan_bytes (s : scanner) (data : string) : option scanner :=
  match data with
  | "" => Some s
  | String c rest =>
      match scan_step s c with
      | Some s' => scan_bytes s' rest
      | None => None
      end
  end.

(** [scanner.eof]: the input is complete when one more space leaves the
    scanner at the end of the top-level value. *)
Definition eof (s : scanner) : option Value :=
  match step s with
  | stateEndTop => top s
  | _ =>
      match scan_step s " " with
      | Some s' => match step s' with stateEndTop => top s' | _ => None end
      | None => None
      end
  end.

(** The JSON value of a text, [None] on a syntax error ([checkValid]). *)
Definition parse (data : string) : option Value :=
  match scan_bytes reset data with
  | Some s => eof s
  | None => None
  end.

(** *** Decoding into a [FlakeMetadata] (decode.go) *)

(** strconv.ParseInt(s, 10, 64): an optional sign, then decimal digits
    only; [None] on a syntax or range error. *)
Fixpoint digits (acc : Z) (s : string) : option Z :=
  match s with
  | "" => Some acc
  | String c r => if isDigit c then digits (10 * acc + (byte c - 48)) r else None
  end.

Definition ParseInt (s : string) : option Z :=
  let '(neg, body) :=
    match s with
    | String c r => if (c =? "-")%char then (true, r)
                    else if (c =? "+")%char then (false, r) else (false, s)
    | "" => (false, s)
    end in
  match body with
  | "" => None
  | _ =>
      match digits 0 body with
      | Some n =>
          let v := if neg then - n else n in
          if (- 2 ^ 63 <=? v) && (v <=? 2 ^ 63 - 1) then Some v else None
      | None => None
      end
  end.

(** [foldName], up to what can fold to an ASCII name: ASCII letters are
    upper-cased, and the two other runes whose case orbit holds an ASCII
    letter, U+017F (long s) and U+212A (Kelvin), fold to S and K. *)
Fixpoint foldName (s : string) : string :=
  match s with
  | "" => ""
  | String c r =>
      let plain := String (if between 97 122 c then chr (byte c - 32) else c) (foldName r) in
      match r with
      | String c1 r1 =>
          if (byte c =? 197) && (byte c1 =? 191) then String "S" (foldName r1)
          else
            match r1 with
            | String c2 r2 =>
                if (byte c =? 226) && (byte c1 =? 132) && (byte c2 =? 170)
                then String "K" (foldName r2) else plain
            | "" => plain
            end
      | "" => plain
      end
  end.

Inductive field : Type := fLastModified | fOriginalUrl.

Definition field_name (f : field) : string :=
  match f with
  | fLastModified => "lastModified"
  | fOriginalUrl => "originalUrl"
  end.

(** The struct field a member key selects: the exact name first, else the
    name under case folding. *)
Definition lookup_field (key : string) : option field :=
  if (key =? field_name fLastModified)%string then Some fLastModified
  else if (key =? field_name fOriginalUrl)%string then Some fOriginalUrl
  else if (foldName key =? foldName (field_name fLastModified))%string then Some fLastModified
  else if (foldName key =? foldName (field_name fOriginalUrl))%string then Some fOriginalUrl
  else None.

Definition kind_name (v : Value) : string :=
  match v with
  | Null => "null"
  | Bool _ => "bool"
  | Number _ => "number"
  | Str _ => "string"
  | Array _ => "array"
  | Object _ => "object"
  end.

(** Storing one member value into its field.  A JSON null leaves the field
    as it is; a value of the wrong kind, or a number that is not an int64,
    leaves it as it is and reports an UnmarshalTypeError. *)
Definition store (f : field) (v : Value) (m : FlakeMetadata)
  : FlakeMetadata * option error :=
  match v, f with
  | Null, _ => (m, None)
  | Number l, fLastModified =>
      match ParseInt l with
      | Some n => ({| LastModified := n; OriginalUrl := OriginalUrl m |}, None)
      | None => (m, Some (UnmarshalTypeError ("number " ++ l) (field_name f)))
      end
  | Str s, fOriginalUrl => ({| LastModified := LastModified m; OriginalUrl := s |}, None)
  | _, _ => (m, Some (UnmarshalTypeError (kind_name v) (field_name f)))
  end.

(** [saveError]: the first error is the one reported. *)
Definition saveError (saved new : option error) : option error :=
  match saved with
  | Some e => Some e
  | None => new
  end.

(** The members of an object, in order; decoding goes on after an error. *)
Fixpoint object (ms : list (string * Value)) (m : FlakeMetadata) (saved : option error)
  : FlakeMetadata * option error :=
  match ms with
  | [] => (m, saved)
  | (k, v) :: rest =>
      match lookup_field k with
      | Some f => let '(m', e) := store f v m in object rest m' (saveError saved e)
      | None => object rest m saved
      end
  end.

Definition decode (v : Value) (m : FlakeMetadata) : FlakeMetadata * option error :=
  match v with
  | Null => (m, None)
  | Object ms => object ms m None
  | _ => (m, Some (UnmarshalTypeError (kind_name v) ""))
  end.

(** [json.Unmarshal(data, &m)]: the struct after the call and the error
    returned.  Invalid text is rejected before anything is stored. *)
Definition Unmarshal (data : string) (m : FlakeMetadata) : FlakeMetadata * option error :=
  match parse data with
  | None => (m, Some SyntaxError)
  | Some v => decode v m
  end.

End json.

(** ** Packages used by [Run] through their declarations only

    [Run] reads fields of values declared in [hydra] and [config], and
    calls into [hydra], [healthcheck] and [nix].  The records below hold
    the fields [Run] reads, with the types its uses fix; the calls are
    fields of the environment [Env] further down. *)

Module hydra.

(** The client built at root.go:65-70. *)
Record HydraClient : Type := {
  Instance : string;
  JobSet : string;
  Job : string;
  Project : string
}.

(** Modelled from the spec: the Build of the data model, declared in
    package hydra: the completion flag [Finished] (root.go:73 compares it
    with 1) and the status code [BuildStatus] (0 is success; root.go:77-78
    compares it with 0 and logs it as an int). *)
Record Build : Type := {
  Finished : Z;
  BuildStatus : Z
}.

(** Modelled from the spec: the Evaluation of the data model, declared in
    package hydra: the reference string of the flake the build produced. *)
Record Eval : Type := {
  Flake : string
}.

End hydra.

Module config.

(** Modelled from the spec: the RunConfig of the data model, declared in
    package config, with the fields [Run] reads: the CI coordinates, the
    ordered canary host list, the operation mode, host and extra arguments
    of the rebuild, the reboot flag and the debug flag. *)
Record HydraConfig : Type := {
  Instance : string;
  Project : string;
  JobSet : string;
  Job : string
}.

Record NixOSRebuildConfig : Type := {
  Operation : string;
  Host : string;
  Args : list string
}.

Record HealthCheckConfig : Type := {
  CanaryHosts : list string
}.

Record Config : Type := {
  Debug : bool;
  Hydra : HydraConfig;
  Reboot : bool;
  HealthCheck : HealthCheckConfig;
  NixOSRebuild : NixOSRebuildConfig
}.

End config.

Module exec.

(** [exec.Command(name, arg...)] *)
Record Cmd : Type := Command {
  Path : string;
  Args : list string
}.

End exec.

Module slog.

Definition Level : Type := Z.
Definition LevelDebug : Level := -4.
Definition LevelInfo : Level := 0.

Inductive Attr : Type :=
| String (key : string) (value : string)
| Int (key : string) (value : Z).

End slog.

(** ** The process and its environment *)

(** How a call ends: it returns, or the process ends inside it. *)
Inductive Outcome (A : Type) : Type :=
| Returned (a : A)
| Exited (code : Z)        (* os.Exit(code) *)
| Panicked (e : error).    (* panic(e), never recovered *)

Arguments Returned {A} a.
Arguments Exited {A} code.
Arguments Panicked {A} e.

(** What the process does to the outside, in order, each call with the
    answer it got. *)
Inductive Event : Type :=
| EvGetLatestBuild (c : hydra.HydraClient) (r : Outcome hydra.Build)
| EvGetEval (c : hydra.HydraClient) (b : hydra.Build) (r : Outcome hydra.Eval)
| EvOutput (cmd : exec.Cmd) (output : string) (err : option error)
| EvPing (host : string) (r : Outcome (option error))
| EvNixosRebuild (operation flake : string) (args : list string) (r : Outcome unit)
| EvReboot (r : Outcome unit)
| EvLog (level : slog.Level) (msg : string) (attrs : list slog.Attr).

(** Modelled from the spec: the collaborators [Run] calls, whose bodies
    are in packages hydra, healthcheck, nix and os/exec: GetLatestBuild and
    GetEval of the build status source, the liveness probe of one host,
    the run of an external command with its captured output, the upgrade
    operation and the reboot.  The world has a state [W]; each call gives
    its answer and the next state.  A fallible call without an error
    result fails by ending the process (the original aborts from inside
    the call on any error) and succeeds by returning, hence [Outcome]; the
    probe and the command hand their error back to the caller. *)
Record Env (W : Type) : Type := {
  hydra_GetLatestBuild : hydra.HydraClient -> W -> Outcome hydra.Build * W;
  hydra_GetEval : hydra.HydraClient -> hydra.Build -> W -> Outcome hydra.Eval * W;
  exec_Output : exec.Cmd -> W -> (string * option error) * W;
  healthcheck_Ping : string -> W -> Outcome (option error) * W;
  nix_NixosRebuild : string -> string -> list string -> W -> Outcome unit * W;
  nix_Reboot : W -> Outcome unit * W
}.

Arguments hydra_GetLatestBuild {W} _ _ _.
Arguments hydra_GetEval {W} _ _ _ _.
Arguments exec_Output {W} _ _ _.
Arguments healthcheck_Ping {W} _ _ _.
Arguments nix_NixosRebuild {W} _ _ _ _ _.
Arguments nix_Reboot {W} _ _.

(** The state of the process: the world, and the level of slog's default
    logger. *)
Record Proc (W : Type) : Type := {
  world : W;
  logLevel : slog.Level
}.

Arguments world {W} _.
Arguments logLevel {W} _.

Definition M (W A : Type) : Type := Proc W -> Outcome A * Proc W * list Event.

Definition ret {W A} (a : A) : M W A := fun p => (Returned a, p, []).

Definition bind {W A B} (m : M W A) (k : A -> M W B) : M W B :=
  fun p =>
    match m p with
    | (Returned a, p1, t1) => let '(o, p2, t2) := k a p1 in (o, p2, (t1 ++ t2)%list)
    | (Exited c, p1, t1) => (Exited c, p1, t1)
    | (Panicked e, p1, t1) => (Panicked e, p1, t1)
    end.

Notation "x <- m ;; k" := (bind m (fun x => k))
  (at level 61, m at next level, right associativity).
Notation "' pat <- m ;; k" := (bind m (fun x => match x with pat => k end))
  (at level 61, pat pattern, m at next level, right associativity).
Notation "m ;; k" := (bind m (fun _ => k))
  (at level 61, right associativity).

Definition when {W} (c : bool) (m : M W unit) : M W unit :=
  if c then m else ret tt.

(** [for _, x := range l { body }] *)
Fixpoint for_range {W A} (l : list A) (body : A -> M W unit) : M W unit :=
  match l with
  | [] => ret tt
  | x :: rest => body x ;; for_range rest body
  end.

(** A call into the world, recorded with its answer. *)
Definition extern {W A} (f : W -> Outcome A * W) (ev : Outcome A -> Event) : M W A :=
  fun p =>
    let '(r, w) := f (world p) in
    (r, {| world := w; logLevel := logLevel p |}, [ev r]).

Definition os_Exit {W} (code : Z) : M W unit := fun p => (Exited code, p, []).

Definition panic {W} (e : error) : M W unit := fun p => (Panicked e, p, []).

Definition slog_SetDefault {W} (level : slog.Level) : M W unit :=
  fun p => (Returned tt, {| world := world p; logLevel := level |}, []).

(** A record below the logger's level is dropped. *)
Definition slog_log {W} (level : slog.Level) (msg : string) (attrs : list slog.Attr) : M W unit :=
  fun p => (Returned tt, p, if logLevel p <=? level then [EvLog level msg attrs] else []).

Definition slog_Info {W} := @slog_log W slog.LevelInfo.
Definition slog_Debug {W} := @slog_log W slog.LevelDebug.

Definition exec_Cmd_Output {W} (env : Env W) (cmd : exec.Cmd) : M W (string * option error) :=
  fun p =>
    let '(r, w) := exec_Output env cmd (world p) in
    (Returned r, {| world := w; logLevel := logLevel p |}, [EvOutput cmd (fst r) (snd r)]).

(** ** package fmt *)

Definition itoa (z : Z) : string := NilZero.string_of_int (Z.to_int z).

(** [fmt.Sprintf("%+v", metadata)] *)
Definition Sprintf_plus_v (m : FlakeMetadata) : string :=
  "{LastModified:" ++ itoa (LastModified m) ++ " OriginalUrl:" ++ OriginalUrl m ++ "}".

(** [fmt.Sprintf("%s#%s", a, b)] *)
Definition Sprintf_s_hash_s (a b : string) : string := a ++ "#" ++ b.

(** ** package nix: GetFlakeMetadata *)

(** The debug record written when the command fails carries the captured
    output as its one attribute and no message. *)
Definition GetFlakeMetadata {W} (env : Env W) (flake : string) : M W FlakeMetadata :=
  let cmd := exec.Command "nix" ["flake"; "metadata"; flake; "--json"] in
  '(output, err) <- exec_Cmd_Output env cmd ;;
  match err with
  | Some e => slog_Debug "" [slog.String "output" output] ;; panic e
  | None => ret tt
  end ;;
  let '(metadata, err) := json.Unmarshal output zeroFlakeMetadata in
  match err with
  | Some e => panic e
  | None => ret tt
  end ;;
  slog_Debug (Sprintf_plus_v metadata) [] ;;
  ret metadata.

(** ** package cmd: the [Run] function of the root command *)

Definition Run {W} (env : Env W) (conf : config.Config) : M W unit :=
  (* structured logging setup *)
  let logLevel := if config.Debug conf then slog.LevelDebug else slog.LevelInfo in
  slog_SetDefault logLevel ;;
  (* get latest hydra build status and flake *)
  let hydraClient :=
    {| hydra.Instance := config.Instance (config.Hydra conf);
       hydra.JobSet := config.JobSet (config.Hydra conf);
       hydra.Job := config.Job (config.Hydra conf);
       hydra.Project := config.Project (config.Hydra conf) |} in
  build <- extern (hydra_GetLatestBuild env hydraClient) (EvGetLatestBuild hydraClient) ;;
  when (negb (hydra.Finished build =? 1))
    (slog_Info "Latest build unfinished. Exiting." [] ;;
     os_Exit 0) ;;
  when (negb (hydra.BuildStatus build =? 0))
    (slog_Info "Latest build unsuccessful. Exiting."
       [slog.Int "buildstatus" (hydra.BuildStatus build)] ;;
     os_Exit 1) ;;
  eval <- extern (hydra_GetEval env hydraClient build) (EvGetEval hydraClient build) ;;
  (* check flake metadata to see if this is an update *)
  selfMetadata <- GetFlakeMetadata env "self" ;;
  slog_Debug "hydraMetadata" [slog.String "flake" (hydra.Flake eval)] ;;
  hydraMetadata <- GetFlakeMetadata env (hydra.Flake eval) ;;
  when (LastModified selfMetadata >=? LastModified hydraMetadata)
    (slog_Info "System is already up to date. Exiting." [] ;;
     os_Exit 0) ;;
  let flakeSpec :=
    Sprintf_s_hash_s (OriginalUrl hydraMetadata) (config.Host (config.NixOSRebuild conf)) in
  (* health checks *)
  for_range (config.CanaryHosts (config.HealthCheck conf)) (fun h =>
    err <- extern (healthcheck_Ping env h) (EvPing h) ;;
    when (match err with Some _ => true | None => false end)
      (slog_Info "Ping healthcheck failed. Exiting." [slog.String "host" h] ;;
       os_Exit 1)) ;;
  slog_Info "Performing system upgrade." [slog.String "flake" flakeSpec] ;;
  extern (nix_NixosRebuild env (config.Operation (config.NixOSRebuild conf)) flakeSpec
            (config.Args (config.NixOSRebuild conf)))
         (EvNixosRebuild (config.Operation (config.NixOSRebuild conf)) flakeSpec
            (config.Args (config.NixOSRebuild conf))) ;;
  slog_Info "System upgrade complete." [slog.String "flake" flakeSpec] ;;
  when (config.Reboot conf)
    (slog_Info "Initiating reboot" [] ;;
     extern (nix_Reboot env) EvReboot).

(** ** package cmd: the usage string of a flag *)

(** [utf8.RuneCountInString]: a well-formed sequence counts for one rune,
    and so does a byte that starts none.  [skip] bytes still belong to the
    rune counted last. *)
Fixpoint RuneCount (skip : nat) (s : string) : nat :=
  match s with
  | "" => O
  | String c r =>
      match skip with
      | S k => RuneCount k r
      | O => S (RuneCount (if json.byte c <? 128 then O else Nat.pred (json.utf8_size s)) r)
      end
  end.

Definition RuneCountInString (s : string) : nat := RuneCount O s.

Fixpoint spaces (n : nat) : string :=
  match n with
  | O => ""
  | S k => String " " (spaces k)
  end.

(** The verb [%-Ns] on a string: the string in full, then spaces up to
    [width] runes. *)
Definition pad_right (width : nat) (s : string) : string :=
  s ++ spaces (width - RuneCountInString s).

Definition newline : string := String (json.chr 10) "".

(** [flagUsage] (root.go:158-164).  [config.GetEnv], which names the
    environment variable of a key, is a parameter. *)
Definition flagUsage (GetEnv : string -> string) (viperKey usage : string)
    (required : bool) : string :=
  let reqStr := if required then " (required)" else "" in
  "YAML: " ++ pad_right 27 viperKey ++ "ENV: " ++ pad_right 28 (GetEnv viperKey)
    ++ reqStr ++ newline ++ usage.

(** ** package cobra: the validators of positional arguments

    The three validators the root command combines (root.go:35-36).  They
    return an error made with [fmt.Errorf]; the model keeps which check
    failed and on what, not the text. *)

Module cobra.

Inductive ArgsError : Type :=
| TooManyArgs (max received : nat)   (* accepts at most [max] arg(s), received [received] *)
| InvalidArg (arg : string).         (* invalid argument [arg] *)

(** A validator, given the command's [ValidArgs] and the arguments. *)
Definition PositionalArgs : Type := list string -> list string -> option ArgsError.

Definition MaximumNArgs (n : nat) : PositionalArgs :=
  fun _ args =>
    if (n <? List.length args)%nat then Some (TooManyArgs n (List.length args)) else None.

(** [strings.SplitN(v, "\t", 2)[0]]: a valid argument without the
    description that may follow a tab. *)
Fixpoint before_tab (s : string) : string :=
  match s with
  | "" => ""
  | String c r => if json.byte c =? 9 then "" else String c (before_tab r)
  end.

Definition stringInSlice (a : string) (l : list string) : bool :=
  existsb (String.eqb a) l.

Fixpoint first_invalid (validArgs args : list string) : option ArgsError :=
  match args with
  | [] => None
  | v :: rest =>
      if stringInSlice v validArgs then first_invalid validArgs rest
      else Some (InvalidArg v)
  end.

Definition OnlyValidArgs : PositionalArgs :=
  fun ValidArgs args =>
    match ValidArgs with
    | [] => None
    | _ => first_invalid (map before_tab ValidArgs) args
    end.

Fixpoint MatchAll (pargs : list PositionalArgs) : PositionalArgs :=
  fun ValidArgs args =>
    match pargs with
    | [] => None
    | parg :: rest =>
        match parg ValidArgs args with
        | Some err => Some err
        | None => MatchAll rest ValidArgs args
        end
    end.

End cobra.

(** ** package cmd: the root command around [Run] *)

(** [ValidArgs] and [Args] of the root command. *)
Definition ValidArgs : list string := ["boot"; "switch"].

Definition Args (args : list string) : option cobra.ArgsError :=
  cobra.MatchAll [cobra.MaximumNArgs 1; cobra.OnlyValidArgs] ValidArgs args.

(** What [PreRunE] does to the outside. *)
Inductive PreEvent : Type :=
| PrPrintln (s : string)
| PrInitializeConfig (args : list string) (conf : config.Config) (err : option error)
| PrValidate (conf : config.Config) (err : option error)
| PrUsage.

(** Modelled from the spec: the configuration layer [PreRunE] calls, in
    package config: [InitializeConfig] merges flags, environment and file
    into a configuration or fails, and [Validate] accepts or rejects a
    configuration. *)
Record PreEnv (W : Type) : Type := {
  config_InitializeConfig : list string -> W -> (config.Config * option error) * W;
  config_Validate : config.Config -> W -> option error * W
}.

Arguments config_InitializeConfig {W} _ _ _.
Arguments config_Validate {W} _ _ _.

(** The package variables [PreRunE] reads and writes. *)
Record Globals : Type := {
  Version : string;
  conf : config.Config;
  flagVersion : bool
}.

(** [PreRunE] (root.go:37-54): the error it returns, or the exit it makes,
    the package variables and the world after it, and what it did. *)
Definition PreRunE {W} (penv : PreEnv W) (args : list string) (g : Globals) (w : W)
  : Outcome (option error) * Globals * W * list PreEvent :=
  if flagVersion g then
    (Exited 0, g, w, [PrPrintln (Version g)])
  else
    let '((c, err), w1) := config_InitializeConfig penv args w in
    let g1 := {| Version := Version g; conf := c; flagVersion := flagVersion g |} in
    match err with
    | Some e => (Returned (Some e), g1, w1, [PrInitializeConfig args c err])
    | None =>
        let '(verr, w2) := config_Validate penv c w1 in
        match verr with
        | Some e =>
            (Exited 1, g1, w2,
             [PrInitializeConfig args c err; PrValidate c verr; PrUsage])
        | None =>
            (Returned None, g1, w2, [PrInitializeConfig args c err; PrValidate c verr])
        end
    end.

(** How an execution of the command went. *)
Inductive Executed (W : Type) : Type :=
| ArgsRejected (err : cobra.ArgsError)
| PreRunStopped (o : Outcome (option error)) (g : Globals) (w : W) (pt : list PreEvent)
| Ran (g : Globals) (pt : list PreEvent) (r : Outcome unit * Proc W * list Event).

Arguments ArgsRejected {W} err.
Arguments PreRunStopped {W} o g w pt.
Arguments Ran {W} g pt r.

(** The command as cobra executes it once the flags are parsed: the
    validator of the arguments, then [PreRunE], then [Run] on the
    configuration [PreRunE] left in [conf]; the first error stops it. *)
Definition Execute {W} (penv : PreEnv W) (env : Env W) (args : list string)
    (g : Globals) (p : Proc W) : Executed W :=
  match Args args with
  | Some err => ArgsRejected err
  | None =>
      match PreRunE penv args g (world p) with
      | (Returned None, g1, w1, pt) =>
          Ran g1 pt (Run env (conf g1) {| world := w1; logLevel := logLevel p |})
      | (o, g1, w1, pt) => PreRunStopped o g1 w1 pt
      end
  end.

(** ** A small concrete world

    The state counts the calls made so far.  The build, the outputs of the
    two [nix flake metadata] commands and the set of dead hosts are
    parameters; the rebuild and the reboot return. *)

Definition demo_env (b : hydra.Build) (self target : string * option error)
    (dead : list string) : Env nat :=
  {| hydra_GetLatestBuild := fun _ n => (Returned b, S n);
     hydra_GetEval := fun _ _ n => (Returned {| hydra.Flake := "github:example/flake" |}, S n);
     exec_Output := fun cmd n =>
       (if existsb (String.eqb "self") (exec.Args cmd) then self else target, S n);
     healthcheck_Ping := fun h n =>
       (Returned (if existsb (String.eqb h) dead
                  then Some (OtherError "no reply") else None), S n);
     nix_NixosRebuild := fun _ _ _ n => (Returned tt, S n);
     nix_Reboot := fun n => (Returned tt, S n) |}.

Definition demo_conf (hosts : list string) (reboot : bool) : config.Config :=
  {| config.Debug := false;
     config.Hydra := {| config.Instance := "https://hydra.example"; config.Project := "p";
                        config.JobSet := "js"; config.Job := "j" |};
     config.Reboot := reboot;
     config.HealthCheck := {| config.CanaryHosts := hosts |};
     config.NixOSRebuild := {| config.Operation := "boot"; config.Host := "myhost";
                               config.Args := ["--verbose"] |} |}.

Definition start : Proc nat := {| world := O; logLevel := slog.LevelInfo |}.

Definition ok_build : hydra.Build := {| hydra.Finished := 1; hydra.BuildStatus := 0 |}.

(** [quoted s]: the JSON string literal of a plain [s]. *)
Definition quoted (s : string) : string :=
  String json.quote s ++ String json.quote "".

(** The text [{"lastModified":n,"originalUrl":"github:example/flake"}]. *)
Definition meta_json (n : string) : string * option error :=
  ("{" ++ quoted "lastModified" ++ ":" ++ n ++ ","
       ++ quoted "originalUrl" ++ ":" ++ quoted "github:example/flake" ++ "}", None).

(** The text [{"description":"a flake","lastModified":5}]. *)
Definition json_without_url : string :=
  "{" ++ quoted "description" ++ ":" ++ quoted "a flake" ++ ","
      ++ quoted "lastModified" ++ ":5}".

(** The text [{"originalUrl": 5}]. *)
Definition json_url_number : string := "{" ++ quoted "originalUrl" ++ ": 5}".

(** The runs of the example scenarios. *)

Definition demo_client : hydra.HydraClient :=
  {| hydra.Instance := "https://hydra.example"; hydra.JobSet := "js";
     hydra.Job := "j"; hydra.Project := "p" |}.

Definition meta (n : Z) : FlakeMetadata :=
  {| LastModified := n; OriginalUrl := "github:example/flake" |}.

(** self 100, target 100 *)
Definition env_up_to_date : Env nat :=
  demo_env ok_build (meta_json "100") (meta_json "100") [].

(** self 100, target 200, every host alive *)
Definition env_newer : Env nat :=
  demo_env ok_build (meta_json "100") (meta_json "200") [].

(** self 100, target 200, [bad-host] dead *)
Definition env_dead_host : Env nat :=
  demo_env ok_build (meta_json "100") (meta_json "200") ["bad-host"].

Definition env_build (b : hydra.Build) : Env nat :=
  demo_env b (meta_json "100") (meta_json "200") [].

(** self 100, target 200, every host alive, the rebuild panics *)
Definition env_rebuild_panics : Env nat :=
  {| hydra_GetLatestBuild := hydra_GetLatestBuild env_newer;
     hydra_GetEval := hydra_GetEval env_newer;
     exec_Output := exec_Output env_newer;
     healthcheck_Ping := healthcheck_Ping env_newer;
     nix_NixosRebuild := fun _ _ _ n => (Panicked (ExitError 1), S n);
     nix_Reboot := nix_Reboot env_newer |}.

(** self 100, the command for the target prints an open brace *)
Definition env_bad_target : Env nat :=
  demo_env ok_build (meta_json "100") ("{", None) [].

(** [demo_conf] with debug logging on. *)
Definition demo_conf_debug (hosts : list string) (reboot : bool) : config.Config :=
  {| config.Debug := true;
     config.Hydra := config.Hydra (demo_conf hosts reboot);
     config.Reboot := reboot;
     config.HealthCheck := config.HealthCheck (demo_conf hosts reboot);
     config.NixOSRebuild := config.NixOSRebuild (demo_conf hosts reboot) |}.

(** The text [{"description":"a flake","lastModified":100,"locks":{"version":7},
    "originalUrl":"github:example/flake","revCount":12}]. *)
Definition json_with_extras : string :=
  "{" ++ quoted "description" ++ ":" ++ quoted "a flake" ++ ","
      ++ quoted "lastModified" ++ ":100,"
      ++ quoted "locks" ++ ":{" ++ quoted "version" ++ ":7},"
      ++ quoted "originalUrl" ++ ":" ++ quoted "github:example/flake" ++ ","
      ++ quoted "revCount" ++ ":12}".

(** A configuration layer that yields [demo_conf] and accepts it. *)
Definition demo_penv : PreEnv nat :=
  {| config_InitializeConfig := fun _ n => ((demo_conf ["host1"] false, None), S n);
     config_Validate := fun _ n => (None, S n) |}.

(** The package variables before [PreRunE]: no configuration yet. *)
Definition demo_globals : Globals :=
  {| Version := "development";
     conf := {| config.Debug := false;
                config.Hydra := {| config.Instance := ""; config.Project := "";
                                   config.JobSet := ""; config.Job := "" |};
                config.Reboot := false;
                config.HealthCheck := {| config.CanaryHosts := [] |};
                config.NixOSRebuild := {| config.Operation := ""; config.Host := "";
                                          config.Args := [] |} |};
     flagVersion := false |}.

(** * Properties *)

(** ** Reading a trace *)

Definition is_log (e : Event) : bool :=
  match e with EvLog _ _ _ => true | _ => false end.
Definition is_ping (e : Event) : bool :=
  match e with EvPing _ _ => true | _ => false end.
Definition is_rebuild (e : Event) : bool :=
  match e with EvNixosRebuild _ _ _ _ => true | _ => false end.
Definition is_reboot (e : Event) : bool :=
  match e with EvReboot _ => true | _ => false end.

(** The calls of a trace: everything but the log records. *)
Definition calls (t : list Event) : list Event :=
  filter (fun e => negb (is_log e)) t.

(** The hosts probed, in order, each with the probe's answer. *)
Fixpoint pings (t : list Event) : list (string * Outcome (option error)) :=
  match t with
  | [] => []
  | EvPing h r :: rest => (h, r) :: pings rest
  | _ :: rest => pings rest
  end.

(** The metadata a command's output decodes to, when the command
    succeeded and the output decodes. *)
Definition metadata_of (e : Event) : option FlakeMetadata :=
  match e with
  | EvOutput _ output None =>
      match json.Unmarshal output zeroFlakeMetadata with
      | (m, None) => Some m
      | (_, Some _) => None
      end
  | _ => None
  end.

(** The metadata fetched in a trace, in order. *)
Fixpoint fetched (t : list Event) : list FlakeMetadata :=
  match t with
  | [] => []
  | e :: rest =>
      match metadata_of e with
      | Some m => m :: fetched rest
      | None => fetched rest
      end
  end.

Definition is_returned {A} (r : Outcome A) : bool :=
  match r with Returned _ => true | _ => false end.

(** The end of the process inside a call that did not return. *)
Definition stop {A B} (r : Outcome A) : Outcome B :=
  match r with
  | Returned _ => Exited 0
  | Exited c => Exited c
  | Panicked e => Panicked e
  end.

(** ** The paths through [Run] *)

Definition hydraClient_of (conf : config.Config) : hydra.HydraClient :=
  {| hydra.Instance := config.Instance (config.Hydra conf);
     hydra.JobSet := config.JobSet (config.Hydra conf);
     hydra.Job := config.Job (config.Hydra conf);
     hydra.Project := config.Project (config.Hydra conf) |}.

Definition nix_flake_metadata (flake : string) : exec.Cmd :=
  exec.Command "nix" ["flake"; "metadata"; flake; "--json"].

(** A debug record, present when debug logging is on. *)
Definition dbg (on : bool) (msg : string) (attrs : list slog.Attr) : list Event :=
  if on then [EvLog slog.LevelDebug msg attrs] else [].

Definition info (msg : string) (attrs : list slog.Attr) : Event :=
  EvLog slog.LevelInfo msg attrs.

(** The three ways [GetFlakeMetadata flake] can go. *)
Inductive Fetch (debug : bool) (flake : string)
  : Outcome FlakeMetadata -> list Event -> Prop :=
| Fetch_exec_error output e :
    Fetch debug flake (Panicked e)
      (EvOutput (nix_flake_metadata flake) output (Some e)
       :: dbg debug "" [slog.String "output" output])
| Fetch_decode_error output m e :
    json.Unmarshal output zeroFlakeMetadata = (m, Some e) ->
    Fetch debug flake (Panicked e)
      [EvOutput (nix_flake_metadata flake) output None]
| Fetch_ok output m :
    json.Unmarshal output zeroFlakeMetadata = (m, None) ->
    Fetch debug flake (Returned m)
      (EvOutput (nix_flake_metadata flake) output None
       :: dbg debug (Sprintf_plus_v m) []).

(** The health check loop over the hosts left. *)
Inductive Gate : list string -> Outcome unit -> list Event -> Prop :=
| Gate_done : Gate [] (Returned tt) []
| Gate_alive h hosts o t :
    Gate hosts o t ->
    Gate (h :: hosts) o (EvPing h (Returned None) :: t)
| Gate_dead h hosts e :
    Gate (h :: hosts) (Exited 1)
      [EvPing h (Returned (Some e));
       info "Ping healthcheck failed. Exiting." [slog.String "host" h]]
| Gate_stop h hosts r :
    is_returned r = false ->
    Gate (h :: hosts) (stop r) [EvPing h r].

(** Rebuild and optional reboot. *)
Inductive Upgrade (conf : config.Config) (flakeSpec : string)
  : Outcome unit -> list Event -> Prop :=
| Upgrade_stop r :
    is_returned r = false ->
    Upgrade conf flakeSpec (stop r)
      [info "Performing system upgrade." [slog.String "flake" flakeSpec];
       EvNixosRebuild (config.Operation (config.NixOSRebuild conf)) flakeSpec
         (config.Args (config.NixOSRebuild conf)) r]
| Upgrade_done :
    config.Reboot conf = false ->
    Upgrade conf flakeSpec (Returned tt)
      [info "Performing system upgrade." [slog.String "flake" flakeSpec];
       EvNixosRebuild (config.Operation (config.NixOSRebuild conf)) flakeSpec
         (config.Args (config.NixOSRebuild conf)) (Returned tt);
       info "System upgrade complete." [slog.String "flake" flakeSpec]]
| Upgrade_reboot r :
    config.Reboot conf = true ->
    Upgrade conf flakeSpec r
      [info "Performing system upgrade." [slog.String "flake" flakeSpec];
       EvNixosRebuild (config.Operation (config.NixOSRebuild conf)) flakeSpec
         (config.Args (config.NixOSRebuild conf)) (Returned tt);
       info "System upgrade complete." [slog.String "flake" flakeSpec];
       info "Initiating reboot" [];
       EvReboot r].

(** From the freshness comparison on. *)
Inductive Decide (conf : config.Config) (selfMetadata hydraMetadata : FlakeMetadata)
  : Outcome unit -> list Event -> Prop :=
| Decide_up_to_date :
    LastModified hydraMetadata <= LastModified selfMetadata ->
    Decide conf selfMetadata hydraMetadata (Exited 0)
      [info "System is already up to date. Exiting." []]
| Decide_gate_closed o t :
    LastModified selfMetadata < LastModified hydraMetadata ->
    Gate (config.CanaryHosts (config.HealthCheck conf)) o t ->
    o <> Returned tt ->
    Decide conf selfMetadata hydraMetadata o t
| Decide_upgrade tg o tu :
    LastModified selfMetadata < LastModified hydraMetadata ->
    Gate (config.CanaryHosts (config.HealthCheck conf)) (Returned tt) tg ->
    Upgrade conf
      (OriginalUrl hydraMetadata ++ "#" ++ config.Host (config.NixOSRebuild conf)) o tu ->
    Decide conf selfMetadata hydraMetadata o (tg ++ tu)%list.

(** From the evaluation on. *)
Inductive Compare (conf : config.Config) (eval : hydra.Eval)
  : Outcome unit -> list Event -> Prop :=
| Compare_self_failed e t :
    Fetch (config.Debug conf) "self" (Panicked e) t ->
    Compare conf eval (Panicked e) t
| Compare_target_failed s ts e tt_ :
    Fetch (config.Debug conf) "self" (Returned s) ts ->
    Fetch (config.Debug conf) (hydra.Flake eval) (Panicked e) tt_ ->
    Compare conf eval (Panicked e)
      (ts ++ dbg (config.Debug conf) "hydraMetadata" [slog.String "flake" (hydra.Flake eval)]
          ++ tt_)%list
| Compare_decide s ts t tt_ o td :
    Fetch (config.Debug conf) "self" (Returned s) ts ->
    Fetch (config.Debug conf) (hydra.Flake eval) (Returned t) tt_ ->
    Decide conf s t o td ->
    Compare conf eval o
      (ts ++ dbg (config.Debug conf) "hydraMetadata" [slog.String "flake" (hydra.Flake eval)]
          ++ tt_ ++ td)%list.

(** The whole run. *)
Inductive Path (conf : config.Config) : Outcome unit -> list Event -> Prop :=
| Path_no_build r :
    is_returned r = false ->
    Path conf (stop r) [EvGetLatestBuild (hydraClient_of conf) r]
| Path_unfinished b :
    hydra.Finished b <> 1 ->
    Path conf (Exited 0)
      [EvGetLatestBuild (hydraClient_of conf) (Returned b);
       info "Latest build unfinished. Exiting." []]
| Path_unsuccessful b :
    hydra.Finished b = 1 ->
    hydra.BuildStatus b <> 0 ->
    Path conf (Exited 1)
      [EvGetLatestBuild (hydraClient_of conf) (Returned b);
       info "Latest build unsuccessful. Exiting."
         [slog.Int "buildstatus" (hydra.BuildStatus b)]]
| Path_no_eval b r :
    hydra.Finished b = 1 ->
    hydra.BuildStatus b = 0 ->
    is_returned r = false ->
    Path conf (stop r)
      [EvGetLatestBuild (hydraClient_of conf) (Returned b);
       EvGetEval (hydraClient_of conf) b r]
| Path_compare b eval o t :
    hydra.Finished b = 1 ->
    hydra.BuildStatus b = 0 ->
    Compare conf eval o t ->
    Path conf o
      (EvGetLatestBuild (hydraClient_of conf) (Returned b)
       :: EvGetEval (hydraClient_of conf) b (Returned eval) :: t).

(** ** Auxiliary notions for the proofs *)

(** The kinds of events, one per constructor of [Event]. *)
Inductive Kind : Type :=
| KBuild | KEval | KOutput | KPing | KRebuild | KReboot | KLog.

Definition kind (e : Event) : Kind :=
  match e with
  | EvGetLatestBuild _ _ => KBuild
  | EvGetEval _ _ _ => KEval
  | EvOutput _ _ _ => KOutput
  | EvPing _ _ => KPing
  | EvNixosRebuild _ _ _ _ => KRebuild
  | EvReboot _ => KReboot
  | EvLog _ _ _ => KLog
  end.

(** Every event of [t] is of one of the kinds [ks]. *)
Definition only (ks : list Kind) (t : list Event) : Prop :=
  Forall (fun e => In (kind e) ks) t.

(** The body of the health check loop of [Run] (root.go:97-101). *)
Definition probe {W} (env : Env W) (h : string) : M W unit :=
  err <- extern (healthcheck_Ping env h) (EvPing h) ;;
  when (match err with Some _ => true | None => false end)
    (slog_Info "Ping healthcheck failed. Exiting." [slog.String "host" h] ;;
     os_Exit 1).

(** [Reached conf o tr s t]: the run got a finished, successful build and
    both metadata, [s] for the running system and [t] for the build; [pre]
    is the trace up to the comparison and [td] the trace from it on. *)
Definition Reached (conf : config.Config) (o : Outcome unit) (tr : list Event)
    (s t : FlakeMetadata) : Prop :=
  exists b pre td,
    tr = (pre ++ td)%list
    /\ In (EvGetLatestBuild (hydraClient_of conf) (Returned b)) pre
    /\ hydra.Finished b = 1 /\ hydra.BuildStatus b = 0
    /\ only [KBuild; KEval; KOutput; KLog] pre
    /\ fetched pre = [s; t]
    /\ Decide conf s t o td.

(** A probe that returned an error. *)
Definition is_dead_ping (e : Event) : bool :=
  match e with EvPing _ (Returned (Some _)) => true | _ => false end.

(** The log records written after the evaluation query: debug records,
    and the five messages of the later steps. *)
Definition late_log (e : Event) : bool :=
  match e with
  | EvLog level msg _ =>
      (level =? slog.LevelDebug)
      || existsb (String.eqb msg)
           ["System is already up to date. Exiting.";
            "Ping healthcheck failed. Exiting.";
            "Performing system upgrade.";
            "System upgrade complete.";
            "Initiating reboot"]
  | _ => true
  end.

(** Every log record of [t] is one of those. *)
Definition late (t : list Event) : Prop := Forall (fun e => late_log e = true) t.

Definition field_eqb (f g : json.field) : bool :=
  match f, g with
  | json.fLastModified, json.fLastModified => true
  | json.fOriginalUrl, json.fOriginalUrl => true
  | _, _ => false
  end.

(** Some member of the object selects the field [f]. *)
Definition has_field (f : json.field) (ms : list (string * json.Value)) : bool :=
  existsb (fun kv => match json.lookup_field (fst kv) with
                     | Some g => field_eqb f g
                     | None => false
                     end) ms.

(** The value [v] can be stored in the field [f]. *)
Definition fits (f : json.field) (v : json.Value) : bool :=
  match v, f with
  | json.Null, _ => true
  | json.Number l, json.fLastModified =>
      match json.ParseInt l with Some _ => true | None => false end
  | json.Str _, json.fOriginalUrl => true
  | _, _ => false
  end.

(** [v] is the value of the field [f] in the object: some member selects
    [f], and every member that does carries [v]. *)
Definition selects (ms : list (string * json.Value)) (f : json.field) (v : json.Value) : Prop :=
  has_field f ms = true
  /\ forall k v', In (k, v') ms -> json.lookup_field k = Some f -> v' = v.

(** The error [GetFlakeMetadata] meets, if any, given the answer of the
    command. *)
Definition failure (output : string) (err : option error) : option error :=
  match err with
  | Some e => Some e
  | None => snd (json.Unmarshal output zeroFlakeMetadata)
  end.

(** The end of the process inside the call [e] records, if the call did
    not return. *)
Definition stopped (e : Event) : option (Outcome unit) :=
  match e with
  | EvGetLatestBuild _ r => if is_returned r then None else Some (stop r)
  | EvGetEval _ _ r => if is_returned r then None else Some (stop r)
  | EvPing _ r => if is_returned r then None else Some (stop r)
  | EvNixosRebuild _ _ _ r => if is_returned r then None else Some (stop r)
  | EvReboot r => if is_returned r then None else Some (stop r)
  | EvOutput _ _ _ => None
  | EvLog _ _ _ => None
  end.

(** No call of [t] ended the process. *)
Definition quiet (t : list Event) : Prop := Forall (fun e => stopped e = None) t.

(** A call of [t] that ended the process is the last event of [t], and
    [o] is how it ended. *)
Definition final (o : Outcome unit) (t : list Event) : Prop :=
  forall pre e post o',
    t = (pre ++ e :: post)%list -> stopped e = Some o' -> post = [] /\ o = o'.


(** The levels a log record can have with debug logging off or on. *)
Definition level_ok (debug : bool) (e : Event) : Prop :=
  match e with
  | EvLog level _ _ => level = slog.LevelInfo \/ (level = slog.LevelDebug /\ debug = true)
  | _ => True
  end.

(** Every log record of [t] has such a level. *)
Definition levels (debug : bool) (t : list Event) : Prop := Forall (level_ok debug) t.

(** The exits [Run] makes itself, each with the message of the record
    written just before. *)
Definition announced (c : Z) (msg : string) : Prop :=
  In (c, msg)
    [(0, "Latest build unfinished. Exiting.");
     (1, "Latest build unsuccessful. Exiting.");
     (0, "System is already up to date. Exiting.");
     (1, "Ping healthcheck failed. Exiting.")].

(** Why a trace ends in an exit with status [c]: its last event is a call
    that exited with [c], or the record that announces the exit. *)
Definition ExitCause (c : Z) (t : list Event) : Prop :=
  (exists pre e, t = (pre ++ [e])%list /\ stopped e = Some (Exited c))
  \/ (exists pre msg attrs, t = (pre ++ [info msg attrs])%list /\ announced c msg).

(** Why a trace ends in a panic with [e]: its last event is a call that
    panicked with [e], or its last call is a command that failed, or whose
    output did not decode, with [e]. *)
Definition PanicCause (e : error) (t : list Event) : Prop :=
  (exists pre ev, t = (pre ++ [ev])%list /\ stopped ev = Some (Panicked e))
  \/ (exists pre cmd output err post,
        t = (pre ++ EvOutput cmd output err :: post)%list
        /\ failure output err = Some e /\ only [KLog] post).


(** The member selects a field of the struct. *)
Definition known (kv : string * json.Value) : bool :=
  match json.lookup_field (fst kv) with Some _ => true | None => false end.

(** Every byte is below 128. *)
Fixpoint is_ascii (s : string) : bool :=
  match s with
  | "" => true
  | String c r => (json.byte c <? 128) && is_ascii r
  end.

(** The outcome of a run and the kinds of its calls, in order. *)
Definition summary (r : Outcome unit * Proc nat * list Event) : Outcome unit * list Kind :=
  (fst (fst r), map kind (calls (snd r))).

(** ** Every run follows one of the paths *)

Arguments json.Unmarshal : simpl never.

Ltac unfold_M :=
  unfold bind, when, extern, exec_Cmd_Output, slog_Info, slog_Debug, slog_log,
    slog_SetDefault, os_Exit, panic, ret in *.

Ltac inv H := inversion H; subst; clear H.

Lemma GetFlakeMetadata_Fetch {W} (env : Env W) flake p o p' t :
  GetFlakeMetadata env flake p = (o, p', t) ->
  Fetch (logLevel p <=? slog.LevelDebug) flake o t /\ logLevel p' = logLevel p.
Proof.
  unfold GetFlakeMetadata. unfold_M. fold (nix_flake_metadata flake).
  destruct (exec_Output env (nix_flake_metadata flake) (world p)) as [[output err] w] eqn:E.
  simpl. destruct err as [e|]; simpl.
  - intros H. inv H. split; [|reflexivity].
    rewrite app_nil_r. apply Fetch_exec_error.
  - destruct (json.Unmarshal output zeroFlakeMetadata) as [m [e|]] eqn:U; simpl;
      intros H; inv H; (split; [|reflexivity]).
    + eapply Fetch_decode_error; eauto.
    + rewrite app_nil_r. apply Fetch_ok; assumption.
Qed.

Lemma for_range_Gate {W} (env : Env W) hosts :
  forall p o p' t,
    logLevel p <= slog.LevelInfo ->
    for_range hosts (probe env) p = (o, p', t) ->
    Gate hosts o t /\ logLevel p' = logLevel p.
Proof.
  induction hosts as [|h hosts IH]; intros p o p' t Hl; simpl.
  - unfold ret. intros H. inv H. split; [constructor | reflexivity].
  - unfold bind at 1. unfold probe at 1. unfold_M.
    destruct (healthcheck_Ping env h (world p)) as [r w] eqn:E.
    destruct r as [[e|]|c|e]; simpl.
    + apply Z.leb_le in Hl. rewrite Hl. intros H. inv H.
      split; [apply Gate_dead | reflexivity].
    + destruct (for_range hosts (probe env) {| world := w; logLevel := logLevel p |})
        as [[o1 p1] t1] eqn:F.
      apply IH in F; [|exact Hl]. destruct F as [G L].
      intros H. inv H. split; [apply Gate_alive; assumption | exact L].
    + intros H. inv H. split; [|reflexivity].
      apply (Gate_stop h hosts (Exited c)). reflexivity.
    + intros H. inv H. split; [|reflexivity].
      apply (Gate_stop h hosts (Panicked e)). reflexivity.
Qed.

Lemma Upgrade_path {W} (env : Env W) conf flakeSpec p o p' t :
  logLevel p <= slog.LevelInfo ->
  (slog_Info "Performing system upgrade." [slog.String "flake" flakeSpec] ;;
   extern (nix_NixosRebuild env (config.Operation (config.NixOSRebuild conf)) flakeSpec
             (config.Args (config.NixOSRebuild conf)))
          (EvNixosRebuild (config.Operation (config.NixOSRebuild conf)) flakeSpec
             (config.Args (config.NixOSRebuild conf))) ;;
   slog_Info "System upgrade complete." [slog.String "flake" flakeSpec] ;;
   when (config.Reboot conf)
     (slog_Info "Initiating reboot" [] ;;
      extern (nix_Reboot env) EvReboot)) p = (o, p', t) ->
  Upgrade conf flakeSpec o t.
Proof.
  intros Hl. apply Z.leb_le in Hl. unfold_M. rewrite Hl. simpl.
  destruct (nix_NixosRebuild env _ _ _ (world p)) as [r w] eqn:E.
  destruct r as [[]|c|e]; simpl.
  - rewrite Hl. destruct (config.Reboot conf) eqn:R; simpl.
    + rewrite Hl. destruct (nix_Reboot env w) as [r2 w2] eqn:E2. simpl.
      intros H.
      assert (o = r2 /\ t =
        [info "Performing system upgrade." [slog.String "flake" flakeSpec];
         EvNixosRebuild (config.Operation (config.NixOSRebuild conf)) flakeSpec
           (config.Args (config.NixOSRebuild conf)) (Returned tt);
         info "System upgrade complete." [slog.String "flake" flakeSpec];
         info "Initiating reboot" []; EvReboot r2]) as [-> ->].
      { destruct r2 as [[]|c|e]; inv H; split; reflexivity. }
      apply Upgrade_reboot; assumption.
    + intros H. inv H. apply Upgrade_done; assumption.
  - intros H. inv H. apply (Upgrade_stop conf flakeSpec (Exited c)). reflexivity.
  - intros H. inv H. apply (Upgrade_stop conf flakeSpec (Panicked e)). reflexivity.
Qed.

Lemma bind_inv {W A B} (m : M W A) (k : A -> M W B) p o p' t :
  bind m k p = (o, p', t) ->
  (exists a p1 t1 t2,
      m p = (Returned a, p1, t1) /\ k a p1 = (o, p', t2) /\ t = (t1 ++ t2)%list)
  \/ (exists r, m p = (r, p', t) /\ is_returned r = false /\ o = stop r).
Proof.
  unfold bind. destruct (m p) as [[r p1] t1]. destruct r as [a|c|e].
  - destruct (k a p1) as [[o2 p2] t2] eqn:K. intros H. inv H.
    left. exists a, p1, t1, t2. auto.
  - intros H. inv H. right. exists (Exited c). auto.
  - intros H. inv H. right. exists (Panicked e). auto.
Qed.

Ltac unfold_M_in H :=
  unfold bind, when, extern, exec_Cmd_Output, slog_Info, slog_Debug, slog_log,
    slog_SetDefault, os_Exit, panic, ret in H; simpl in H.

Ltac bind_step H Hm :=
  apply bind_inv in H;
  destruct H as [(? & ? & ? & ? & Hm & H & ->) | (? & Hm & ? & ->)].

Theorem Run_Path {W} (env : Env W) conf p o p' t :
  Run env conf p = (o, p', t) -> Path conf o t.
Proof.
  unfold Run. fold (hydraClient_of conf). cbv zeta.
  match goal with
  | |- context [slog_SetDefault ?l] =>
      assert (LD : (l <=? slog.LevelDebug) = config.Debug conf)
        by (destruct (config.Debug conf); reflexivity);
      assert (LI : (l <=? slog.LevelInfo) = true)
        by (destruct (config.Debug conf); reflexivity);
      revert LD LI; generalize l
  end.
  intros lvl LD LI H.
  bind_step H Hm; [| inv Hm; discriminate].
  inv Hm. simpl.
  bind_step H Hm; unfold_M_in Hm;
    destruct (hydra_GetLatestBuild env (hydraClient_of conf) (world p)) as [r' w1];
    inv Hm; [| apply Path_no_build; assumption].
  rename x into b.
  bind_step H Hm; destruct (hydra.Finished b =? 1) eqn:Fin; unfold_M_in Hm;
    rewrite ?LI in Hm; inv Hm; try discriminate;
    [| apply Path_unfinished; apply Z.eqb_neq; assumption].
  apply Z.eqb_eq in Fin.
  bind_step H Hm; destruct (hydra.BuildStatus b =? 0) eqn:St; unfold_M_in Hm;
    rewrite ?LI in Hm; inv Hm; try discriminate;
    [| apply Path_unsuccessful; [assumption | apply Z.eqb_neq; assumption]].
  apply Z.eqb_eq in St. simpl.
  bind_step H Hm; unfold_M_in Hm;
    destruct (hydra_GetEval env (hydraClient_of conf) b w1) as [r' w2];
    inv Hm; [| apply Path_no_eval; assumption].
  rename x into eval.
  apply Path_compare; try assumption.
  bind_step H Hm; apply GetFlakeMetadata_Fetch in Hm; simpl in Hm; rewrite LD in Hm;
    destruct Hm as [F1 L1].
  2: { destruct x as [m|c|e]; try discriminate; inv F1.
       + apply Compare_self_failed. constructor.
       + apply Compare_self_failed. econstructor; eassumption. }
  rename x into selfMetadata, x1 into ts. destruct x0 as [w3 l3]. simpl in L1. subst l3.
  bind_step H Hm; unfold_M_in Hm; inv Hm; try discriminate.
  rewrite LD.
  bind_step H Hm; apply GetFlakeMetadata_Fetch in Hm; simpl in Hm; rewrite LD in Hm;
    destruct Hm as [F2 L2].
  2: { destruct x as [m|c|e]; try discriminate; inv F2.
       + eapply Compare_target_failed; [eassumption | constructor].
       + eapply Compare_target_failed; [eassumption | econstructor; eassumption]. }
  rename x into hydraMetadata, x1 into tt_. destruct x0 as [w4 l4]. simpl in L2. subst l4.
  eapply Compare_decide; try eassumption.
  bind_step H Hm;
    destruct (LastModified selfMetadata >=? LastModified hydraMetadata) eqn:Cmp;
    unfold_M_in Hm; rewrite ?LI in Hm; inv Hm; try discriminate.
  2: { apply Decide_up_to_date. apply Z.geb_le in Cmp. lia. }
  assert (LastModified selfMetadata < LastModified hydraMetadata) as Lt.
  { destruct (Z.geb_spec (LastModified selfMetadata) (LastModified hydraMetadata));
      [discriminate | lia]. }
  simpl.
  bind_step H Hm; apply (for_range_Gate env) in Hm; try (simpl; apply Z.leb_le; exact LI);
    destruct Hm as [G L].
  2: { destruct x as [[]|c|e]; [discriminate | |]; simpl;
         (apply Decide_gate_closed; [assumption | assumption | discriminate]). }
  destruct x. destruct x0 as [w5 l5]. simpl in L. subst l5.
  eapply Decide_upgrade; try eassumption.
  eapply Upgrade_path; [| exact H]. simpl. apply Z.leb_le. exact LI.
Qed.

(** ** What each stage puts in the trace *)

Lemma only_app ks t1 t2 : only ks t1 -> only ks t2 -> only ks (t1 ++ t2).
Proof. intros H1 H2. apply Forall_app. split; assumption. Qed.

Lemma only_weaken ks ks' t : incl ks ks' -> only ks t -> only ks' t.
Proof.
  intros Hi H. eapply Forall_impl; [| exact H]. intros e He. apply Hi. exact He.
Qed.

Lemma only_In ks t e : only ks t -> In e t -> In (kind e) ks.
Proof. intros H Hin. exact (proj1 (Forall_forall _ _) H e Hin). Qed.

Lemma only_cons ks e t : In (kind e) ks -> only ks t -> only ks (e :: t).
Proof. intros He Ht. apply Forall_cons; assumption. Qed.

Ltac only_list :=
  unfold only; repeat (apply Forall_cons; [simpl; tauto |]); try apply Forall_nil.

Ltac only_sub :=
  match goal with
  | |- only _ (_ ++ _) => apply only_app; only_sub
  | |- only _ (_ :: _) => apply only_cons; [simpl; tauto | only_sub]
  | |- only _ [] => apply Forall_nil
  | H : only ?ks ?t |- only _ ?t =>
      apply (only_weaken ks); [intros ? ?; simpl in *; tauto | exact H]
  end.

Lemma only_dbg d msg attrs : only [KLog] (dbg d msg attrs).
Proof. destruct d; only_list. Qed.

Lemma fetched_app t1 t2 : fetched (t1 ++ t2) = (fetched t1 ++ fetched t2)%list.
Proof.
  induction t1 as [|e t1 IH]; simpl; [reflexivity|].
  destruct (metadata_of e); simpl; rewrite IH; reflexivity.
Qed.

Lemma pings_app t1 t2 : pings (t1 ++ t2) = (pings t1 ++ pings t2)%list.
Proof.
  induction t1 as [|e t1 IH]; simpl; [reflexivity|].
  destruct e; simpl; rewrite ?IH; reflexivity.
Qed.

Lemma calls_app t1 t2 : calls (t1 ++ t2) = (calls t1 ++ calls t2)%list.
Proof. apply filter_app. Qed.

(** Stages that run no command fetch nothing, stages that probe no host
    ping nothing, and log records are no calls. *)
Lemma fetched_none ks t : only ks t -> ~ In KOutput ks -> fetched t = [].
Proof.
  induction 1 as [|e t He Ht IH]; intros Hk; simpl; [reflexivity|].
  destruct e; simpl; auto. simpl in He. contradiction.
Qed.

Lemma pings_none ks t : only ks t -> ~ In KPing ks -> pings t = [].
Proof.
  induction 1 as [|e t He Ht IH]; intros Hk; simpl; [reflexivity|].
  destruct e; simpl; auto. simpl in He. contradiction.
Qed.

Lemma calls_none t : only [KLog] t -> calls t = [].
Proof.
  induction 1 as [|e t He Ht IH]; simpl; [reflexivity|].
  destruct e; simpl in *; auto; intuition discriminate.
Qed.

Ltac kinds := simpl; intuition discriminate.

Lemma Fetch_only d f o t : Fetch d f o t -> only [KOutput; KLog] t.
Proof.
  intros H. inv H.
  - pose proof (only_dbg d "" [slog.String "output" output]). only_sub.
  - only_list.
  - pose proof (only_dbg d (Sprintf_plus_v m) []). only_sub.
Qed.

Lemma Fetch_fetched d f o t :
  Fetch d f o t ->
  fetched t = match o with Returned m => [m] | _ => [] end.
Proof.
  intros H. inv H; simpl.
  - apply (fetched_none [KLog]); [apply only_dbg | kinds].
  - rewrite H0. reflexivity.
  - rewrite H0. f_equal. apply (fetched_none [KLog]); [apply only_dbg | kinds].
Qed.

Lemma Gate_only hosts o t : Gate hosts o t -> only [KPing; KLog] t.
Proof.
  induction 1 as [| h hosts o t G IH | h hosts e | h hosts r Hr].
  - only_list.
  - only_sub.
  - only_list.
  - only_list.
Qed.

Lemma Upgrade_only conf spec o t : Upgrade conf spec o t -> only [KRebuild; KReboot; KLog] t.
Proof. intros H. inv H; only_list. Qed.

Lemma Decide_only conf s t o td :
  Decide conf s t o td -> only [KPing; KRebuild; KReboot; KLog] td.
Proof.
  intros H. inv H.
  - only_list.
  - match goal with G : Gate _ _ _ |- _ => apply Gate_only in G end. only_sub.
  - match goal with G : Gate _ _ _ |- _ => apply Gate_only in G end.
    match goal with U : Upgrade _ _ _ _ |- _ => apply Upgrade_only in U end.
    only_sub.
Qed.

(** ** Runs that reach the freshness comparison *)

Ltac fetch_facts :=
  repeat match goal with
  | F : Fetch _ _ _ _ |- _ =>
      pose proof (Fetch_only _ _ _ _ F); apply Fetch_fetched in F; simpl in F
  end.

Lemma fetched_dbg d msg attrs : fetched (dbg d msg attrs) = [].
Proof. destruct d; reflexivity. Qed.

Lemma pings_dbg d msg attrs : pings (dbg d msg attrs) = [].
Proof. destruct d; reflexivity. Qed.

Lemma Path_cases conf o tr :
  Path conf o tr ->
  (only [KBuild; KEval; KOutput; KLog] tr /\ (List.length (fetched tr) < 2)%nat)
  \/ exists s t, Reached conf o tr s t.
Proof.
  intros H. inv H; try (left; split; [only_list | simpl; lia]).
  pose proof (only_dbg (config.Debug conf) "hydraMetadata"
                [slog.String "flake" (hydra.Flake eval)]) as Hd.
  match goal with C : Compare _ _ _ _ |- _ => inv C end.
  - left. fetch_facts. split; [only_sub |]. simpl.
    match goal with E : fetched _ = _ |- _ => rewrite E end. simpl. lia.
  - left. fetch_facts. split; [only_sub |]. simpl.
    rewrite !fetched_app, fetched_dbg.
    repeat match goal with E : fetched _ = _ |- _ => rewrite E; clear E end.
    simpl. lia.
  - right. exists s, t0, b.
    exists (EvGetLatestBuild (hydraClient_of conf) (Returned b)
            :: EvGetEval (hydraClient_of conf) b (Returned eval)
            :: ts ++ dbg (config.Debug conf) "hydraMetadata"
                       [slog.String "flake" (hydra.Flake eval)] ++ tt_)%list, td.
    fetch_facts.
    repeat split; try assumption.
    + simpl. rewrite <- !app_assoc. reflexivity.
    + left. reflexivity.
    + only_sub.
    + simpl. rewrite !fetched_app, fetched_dbg.
      repeat match goal with E : fetched _ = _ |- _ => rewrite E; clear E end.
      reflexivity.
Qed.

Lemma Reached_fetched conf o tr s t : Reached conf o tr s t -> fetched tr = [s; t].
Proof.
  intros (b & pre & td & -> & _ & _ & _ & _ & Hf & Hd).
  rewrite fetched_app, Hf.
  rewrite (fetched_none _ td (Decide_only _ _ _ _ _ Hd)); [reflexivity | kinds].
Qed.

Lemma Path_Reached conf o tr s t :
  Path conf o tr -> fetched tr = [s; t] -> Reached conf o tr s t.
Proof.
  intros HP Hf. destruct (Path_cases _ _ _ HP) as [[_ Hl] | (s' & t' & HR)].
  - rewrite Hf in Hl. simpl in Hl. lia.
  - pose proof (Reached_fetched _ _ _ _ _ HR) as Hf'. rewrite Hf in Hf'.
    inv Hf'. exact HR.
Qed.

Lemma Gate_first h hosts o t : Gate (h :: hosts) o t -> exists r t', t = EvPing h r :: t'.
Proof. intros H. inv H; eauto. Qed.

Lemma Gate_nil o t : Gate [] o t -> o = Returned tt /\ t = [].
Proof. intros H. inv H. auto. Qed.

Lemma Upgrade_rebuild conf spec o t :
  Upgrade conf spec o t ->
  exists r, In (EvNixosRebuild (config.Operation (config.NixOSRebuild conf)) spec
                  (config.Args (config.NixOSRebuild conf)) r) t.
Proof. intros H. inv H; eexists; simpl; eauto. Qed.

(** Past the comparison the next call is the first probe, or the rebuild
    when there is no host to probe. *)
Lemma Decide_proceeds conf s t o td :
  Decide conf s t o td ->
  LastModified s < LastModified t ->
  match config.CanaryHosts (config.HealthCheck conf) with
  | h :: _ => exists r, In (EvPing h r) td
  | [] => exists r,
      In (EvNixosRebuild (config.Operation (config.NixOSRebuild conf))
            (OriginalUrl t ++ "#" ++ config.Host (config.NixOSRebuild conf))
            (config.Args (config.NixOSRebuild conf)) r) td
  end.
Proof.
  intros Hd Hlt.
  inversion Hd as [Hle | o' t' _ HG Hno | tg o' tu _ HG HU]; subst; try lia;
    destruct (config.CanaryHosts (config.HealthCheck conf)) as [|h hosts].
  - apply Gate_nil in HG. destruct HG as [-> _]. congruence.
  - apply Gate_first in HG. destruct HG as (r & t' & ->). exists r. left. reflexivity.
  - apply Upgrade_rebuild in HU. destruct HU as (r & Hin).
    exists r. apply in_or_app. right. exact Hin.
  - apply Gate_first in HG. destruct HG as (r & t' & ->). exists r. left. reflexivity.
Qed.

(** C1. In a run that fetched both metadata, a target that is not strictly
    newer than the running system ends the run with exit status 0 before
    any probe, rebuild or reboot; a strictly newer target takes the run to
    the health checks: the first canary host is probed, or, with no canary
    host configured, the rebuild is called. *)
Theorem freshness_comparison_is_strict {W} (env : Env W) conf p o p' tr
    selfMetadata hydraMetadata :
  Run env conf p = (o, p', tr) ->
  fetched tr = [selfMetadata; hydraMetadata] ->
  (LastModified hydraMetadata <= LastModified selfMetadata ->
     o = Exited 0
     /\ In (info "System is already up to date. Exiting." []) tr
     /\ forall e, In e tr -> is_ping e = false /\ is_rebuild e = false /\ is_reboot e = false)
  /\ (LastModified selfMetadata < LastModified hydraMetadata ->
      match config.CanaryHosts (config.HealthCheck conf) with
      | h :: _ => exists r, In (EvPing h r) tr
      | [] => exists r,
          In (EvNixosRebuild (config.Operation (config.NixOSRebuild conf))
                (OriginalUrl hydraMetadata ++ "#" ++ config.Host (config.NixOSRebuild conf))
                (config.Args (config.NixOSRebuild conf)) r) tr
      end).
Proof.
  intros HR Hf. apply Run_Path in HR.
  destruct (Path_Reached _ _ _ _ _ HR Hf)
    as (b & pre & td & -> & _ & _ & _ & Hpre & _ & Hd).
  split; intros Hcmp.
  - inv Hd; try lia. split; [reflexivity |]. split.
    + apply in_or_app. right. left. reflexivity.
    + intros e He.
      assert (In (kind e) [KBuild; KEval; KOutput; KLog]) as Hk.
      { apply in_app_or in He. destruct He as [He | [<- | []]].
        - exact (only_In _ _ _ Hpre He).
        - simpl. tauto. }
      destruct e; simpl in Hk |- *; intuition discriminate.
  - pose proof (Decide_proceeds _ _ _ _ _ Hd Hcmp) as H.
    destruct (config.CanaryHosts (config.HealthCheck conf)) as [|h hosts];
      destruct H as (r & Hin); exists r; apply in_or_app; right; exact Hin.
Qed.

(** ** Where an event sits in a trace *)

Lemma split_unique {A} (P : A -> bool) (l1 : list A) x l2 :
  (forall z, In z l1 -> P z = false) ->
  (forall z, In z l2 -> P z = false) ->
  P x = true ->
  forall r1 y r2,
    P y = true ->
    (l1 ++ x :: l2 = r1 ++ y :: r2)%list ->
    r1 = l1 /\ y = x /\ r2 = l2.
Proof.
  intros H1 H2 Hx. induction l1 as [|a l1 IH]; intros r1 y r2 Hy E.
  - destruct r1 as [|b r1]; simpl in E; injection E as E1 E2; subst.
    + auto.
    + rewrite H2 in Hy; [discriminate | apply in_or_app; right; left; reflexivity].
  - destruct r1 as [|b r1]; simpl in E; injection E as E1 E2; subst.
    + rewrite (H1 y) in Hy; [discriminate | left; reflexivity].
    + destruct (IH (fun z Hz => H1 z (or_intror Hz)) r1 y r2 Hy E2) as (-> & -> & ->).
      auto.
Qed.

Lemma only_kind_false ks t (P : Event -> bool) k :
  only ks t -> ~ In k ks -> (forall e, P e = true -> kind e = k) ->
  forall e, In e t -> P e = false.
Proof.
  intros Ho Hk HP e He. destruct (P e) eqn:E; [| reflexivity].
  exfalso. apply Hk. rewrite <- (HP e E). exact (only_In _ _ _ Ho He).
Qed.

Lemma is_rebuild_kind e : is_rebuild e = true -> kind e = KRebuild.
Proof. destruct e; simpl; congruence. Qed.

Lemma is_reboot_kind e : is_reboot e = true -> kind e = KReboot.
Proof. destruct e; simpl; congruence. Qed.

Lemma is_ping_kind e : is_ping e = true -> kind e = KPing.
Proof. destruct e; simpl; congruence. Qed.

Lemma filter_none {A} (P : A -> bool) l :
  (forall z, In z l -> P z = false) -> filter P l = [].
Proof.
  induction l as [|a l IH]; intros H; simpl; [reflexivity|].
  rewrite (H a (or_introl eq_refl)). apply IH. intros z Hz. apply H. right. exact Hz.
Qed.

(** The trace of a passed gate: every host probed once, in order, alive. *)
Lemma Gate_pass hosts t :
  Gate hosts (Returned tt) t ->
  pings t = map (fun h => (h, Returned None)) hosts.
Proof.
  remember (Returned tt) as o eqn:Ho. induction 1 as [| h hosts o t G IH | |h hosts r Hr].
  - reflexivity.
  - simpl. rewrite (IH Ho). reflexivity.
  - discriminate.
  - destruct r; simpl in *; discriminate.
Qed.

(** The trace of the upgrade stage: one rebuild, then at most a reboot,
    which is there exactly when the rebuild returned and [Reboot] is set. *)
Lemma Upgrade_shape conf spec o tu :
  Upgrade conf spec o tu ->
  exists r rest,
    tu = info "Performing system upgrade." [slog.String "flake" spec]
         :: EvNixosRebuild (config.Operation (config.NixOSRebuild conf)) spec
              (config.Args (config.NixOSRebuild conf)) r
         :: rest
    /\ only [KReboot; KLog] rest
    /\ ((exists r', In (EvReboot r') rest) <-> (r = Returned tt /\ config.Reboot conf = true))
    /\ (List.length (filter is_reboot rest) <= 1)%nat.
Proof.
  intros H. inv H.
  - exists r, []. split; [reflexivity |]. split; [only_list |]. split; [| simpl; lia].
    split.
    + intros (r' & []).
    + intros [-> _]. discriminate.
  - exists (Returned tt), [info "System upgrade complete." [slog.String "flake" spec]].
    split; [reflexivity |]. split; [only_list |]. split; [| simpl; lia].
    split.
    + intros (r' & [E | []]). discriminate.
    + intros [_ E]. congruence.
  - exists (Returned tt),
      [info "System upgrade complete." [slog.String "flake" spec];
       info "Initiating reboot" []; EvReboot o].
    split; [reflexivity |]. split; [only_list |]. split; [| simpl; lia].
    split.
    + intros _. split; [reflexivity | assumption].
    + intros _. exists o. simpl. tauto.
Qed.

(** Either the run never gets to the upgrade, or its trace is: the trace
    up to the comparison, the probes of all the hosts, the rebuild, and
    what follows the rebuild. *)
Lemma Path_upgrade conf o tr :
  Path conf o tr ->
  only [KBuild; KEval; KOutput; KPing; KLog] tr
  \/ exists b s t pre tg r rest,
      tr = ((pre ++ tg
              ++ [info "Performing system upgrade."
                    [slog.String "flake"
                       (OriginalUrl t ++ "#" ++ config.Host (config.NixOSRebuild conf))]])
             ++ EvNixosRebuild (config.Operation (config.NixOSRebuild conf))
                  (OriginalUrl t ++ "#" ++ config.Host (config.NixOSRebuild conf))
                  (config.Args (config.NixOSRebuild conf)) r
             :: rest)%list
      /\ In (EvGetLatestBuild (hydraClient_of conf) (Returned b)) pre
      /\ hydra.Finished b = 1 /\ hydra.BuildStatus b = 0
      /\ only [KBuild; KEval; KOutput; KLog] pre
      /\ fetched pre = [s; t]
      /\ LastModified s < LastModified t
      /\ Gate (config.CanaryHosts (config.HealthCheck conf)) (Returned tt) tg
      /\ only [KReboot; KLog] rest
      /\ ((exists r', In (EvReboot r') rest) <-> (r = Returned tt /\ config.Reboot conf = true))
      /\ (List.length (filter is_reboot rest) <= 1)%nat.
Proof.
  intros HP. destruct (Path_cases _ _ _ HP) as [[Ho _] | (s & t & HR)].
  - left. only_sub.
  - destruct HR as (b & pre & td & -> & Hb & Hfin & Hst & Hpre & Hf & Hd).
    inversion Hd as [Hle | o' t' Hlt HG Hno | tg o' tu Hlt HG HU]; subst.
    + left. assert (only [KLog] [info "System is already up to date. Exiting." []])
        by only_list. only_sub.
    + left. apply Gate_only in HG. only_sub.
    + right. destruct (Upgrade_shape _ _ _ _ HU) as (r & rest & -> & Hrest & Hiff & Hlen).
      exists b, s, t, pre, tg, r, rest.
      repeat (split; [first [assumption | idtac] |]); try assumption.
      rewrite <- !app_assoc. reflexivity.
Qed.

(** C2. In every run the rebuild is called at most once; and wherever it
    is called, the trace before the call holds a latest build that is
    finished (1) with status 0, the two metadata with the target strictly
    newer than the running system, and a successful probe of every
    configured canary host, in the order of the list. *)
Theorem upgrade_once_after_all_gates {W} (env : Env W) conf p o p' tr :
  Run env conf p = (o, p', tr) ->
  (List.length (filter is_rebuild tr) <= 1)%nat
  /\ forall pre e post,
      tr = (pre ++ e :: post)%list ->
      is_rebuild e = true ->
      (exists b, In (EvGetLatestBuild (hydraClient_of conf) (Returned b)) pre
                 /\ hydra.Finished b = 1 /\ hydra.BuildStatus b = 0)
      /\ (exists s t, fetched pre = [s; t] /\ LastModified s < LastModified t)
      /\ pings pre = map (fun h => (h, Returned None))
                       (config.CanaryHosts (config.HealthCheck conf)).
Proof.
  intros HR. apply Run_Path in HR.
  destruct (Path_upgrade _ _ _ HR)
    as [Ho | (b & s & t & pre0 & tg & r & rest & -> & Hb & Hfin & Hst & Hpre & Hf & Hlt
              & HG & Hrest & _ & _)].
  - assert (forall e, In e tr -> is_rebuild e = false) as Hno.
    { apply (only_kind_false _ _ _ KRebuild Ho); [kinds | apply is_rebuild_kind]. }
    split.
    + rewrite (filter_none _ _ Hno). simpl. lia.
    + intros pre e post -> He. rewrite Hno in He; [discriminate |].
      apply in_or_app. right. left. reflexivity.
  - pose proof (Gate_only _ _ _ HG) as Hg.
    assert (forall e, In e (pre0 ++ tg ++ [info "Performing system upgrade."
              [slog.String "flake"
                 (OriginalUrl t ++ "#" ++ config.Host (config.NixOSRebuild conf))]])%list ->
            is_rebuild e = false) as Hbefore.
    { apply (only_kind_false [KBuild; KEval; KOutput; KPing; KLog] _ _ KRebuild);
        [| kinds | apply is_rebuild_kind].
      assert (only [KLog] [info "Performing system upgrade."
                [slog.String "flake"
                   (OriginalUrl t ++ "#" ++ config.Host (config.NixOSRebuild conf))]])
        by only_list.
      only_sub. }
    assert (forall e, In e rest -> is_rebuild e = false) as Hafter.
    { apply (only_kind_false _ _ _ KRebuild Hrest); [kinds | apply is_rebuild_kind]. }
    split.
    + rewrite filter_app, (filter_none _ _ Hbefore). simpl.
      rewrite (filter_none _ _ Hafter). simpl. lia.
    + intros pre e post E He.
      destruct (split_unique is_rebuild _
                  (EvNixosRebuild (config.Operation (config.NixOSRebuild conf))
                     (OriginalUrl t ++ "#" ++ config.Host (config.NixOSRebuild conf))
                     (config.Args (config.NixOSRebuild conf)) r)
                  _ Hbefore Hafter eq_refl _ _ _ He E)
        as (-> & -> & ->).
      split; [| split].
      * exists b. split; [apply in_or_app; left; exact Hb | auto].
      * exists s, t. split; [| exact Hlt].
        rewrite !fetched_app, Hf.
        rewrite (fetched_none _ _ Hg); [reflexivity | kinds].
      * rewrite !pings_app.
        rewrite (pings_none _ _ Hpre); [| kinds].
        rewrite (Gate_pass _ _ HG). simpl. apply app_nil_r.
Qed.

Lemma app_split_right {A} (P : A -> bool) (l1 l2 : list A) :
  (forall z, In z l1 -> P z = false) ->
  forall pre y post,
    P y = true ->
    (l1 ++ l2 = pre ++ y :: post)%list ->
    exists m, pre = (l1 ++ m)%list /\ l2 = (m ++ y :: post)%list.
Proof.
  induction l1 as [|a l1 IH]; intros H1 pre y post Hy E; simpl in *.
  - exists pre. auto.
  - destruct pre as [|b pre]; simpl in E; injection E as E1 E2; subst.
    + rewrite (H1 y (or_introl eq_refl)) in Hy. discriminate.
    + destruct (IH (fun z Hz => H1 z (or_intror Hz)) pre y post Hy E2) as (m & -> & ->).
      exists m. auto.
Qed.

(** C4. A run calls the reboot exactly when the reboot flag is set and the
    rebuild was called and returned; it calls it at most once, and only
    after that rebuild. *)
Theorem reboot_iff_upgraded_and_flag {W} (env : Env W) conf p o p' tr :
  Run env conf p = (o, p', tr) ->
  ((exists r, In (EvReboot r) tr) <->
   (config.Reboot conf = true
    /\ exists op flake args, In (EvNixosRebuild op flake args (Returned tt)) tr))
  /\ (List.length (filter is_reboot tr) <= 1)%nat
  /\ (forall pre r post,
        tr = (pre ++ EvReboot r :: post)%list ->
        exists op flake args, In (EvNixosRebuild op flake args (Returned tt)) pre).
Proof.
  intros HR. apply Run_Path in HR.
  destruct (Path_upgrade _ _ _ HR)
    as [Ho | (b & s & t & pre0 & tg & r & rest & -> & _ & _ & _ & Hpre & _ & _
              & HG & Hrest & Hiff & Hlen)].
  - assert (forall e, In e tr -> In (kind e) [KBuild; KEval; KOutput; KPing; KLog]) as Hk
      by (intros e He; exact (only_In _ _ _ Ho He)).
    split; [split |split].
    + intros (r & Hr). apply Hk in Hr. simpl in Hr. intuition discriminate.
    + intros (_ & op & f & a & Hr). apply Hk in Hr. simpl in Hr. intuition discriminate.
    + rewrite filter_none; [simpl; lia |].
      apply (only_kind_false _ _ _ KReboot Ho); [kinds | apply is_reboot_kind].
    + intros pre r post ->.
      assert (In (EvReboot r) (pre ++ EvReboot r :: post)) as Hin
        by (apply in_or_app; right; left; reflexivity).
      apply Hk in Hin. simpl in Hin. intuition discriminate.
  - pose proof (Gate_only _ _ _ HG) as Hg.
    set (spec := OriginalUrl t ++ "#" ++ config.Host (config.NixOSRebuild conf)) in *.
    set (A := (pre0 ++ tg ++ [info "Performing system upgrade." [slog.String "flake" spec]])%list)
      in *.
    set (R := EvNixosRebuild (config.Operation (config.NixOSRebuild conf)) spec
                (config.Args (config.NixOSRebuild conf)) r) in *.
    assert (only [KBuild; KEval; KOutput; KPing; KLog] A) as HA.
    { assert (only [KLog] [info "Performing system upgrade." [slog.String "flake" spec]])
        by only_list.
      unfold A. only_sub. }
    assert (only [KBuild; KEval; KOutput; KPing; KRebuild; KLog] (A ++ [R])) as HAR.
    { assert (only [KRebuild] [R]) by (unfold R; only_list). only_sub. }
    split; [split | split].
    + intros (r' & Hr). apply in_app_or in Hr. destruct Hr as [Hr | [Hr | Hr]].
      * apply (only_In _ _ _ HA) in Hr. simpl in Hr. intuition discriminate.
      * discriminate.
      * destruct (proj1 Hiff (ex_intro _ r' Hr)) as [-> Hflag].
        split; [exact Hflag |].
        exists (config.Operation (config.NixOSRebuild conf)), spec,
          (config.Args (config.NixOSRebuild conf)).
        apply in_or_app. right. left. reflexivity.
    + intros (Hflag & op & f & a & Hr). apply in_app_or in Hr.
      destruct Hr as [Hr | [Hr | Hr]].
      * apply (only_In _ _ _ HA) in Hr. simpl in Hr. intuition discriminate.
      * unfold R in Hr. injection Hr as _ _ _ ->.
        destruct (proj2 Hiff (conj eq_refl Hflag)) as (r' & Hr').
        exists r'. apply in_or_app. right. right. exact Hr'.
      * apply (only_In _ _ _ Hrest) in Hr. simpl in Hr. intuition discriminate.
    + rewrite filter_app, filter_none.
      * simpl. exact Hlen.
      * apply (only_kind_false _ _ _ KReboot HA); [kinds | apply is_reboot_kind].
    + intros pre r' post E.
      change (A ++ R :: rest)%list with (A ++ [R] ++ rest)%list in E.
      rewrite app_assoc in E.
      destruct (app_split_right is_reboot (A ++ [R]) rest
                  (only_kind_false _ _ _ KReboot HAR ltac:(kinds) is_reboot_kind)
                  pre (EvReboot r') post eq_refl E) as (m & -> & Hm).
      assert (r = Returned tt) as ->.
      { apply Hiff. exists r'. rewrite Hm. apply in_or_app. right. left. reflexivity. }
      exists (config.Operation (config.NixOSRebuild conf)), spec,
        (config.Args (config.NixOSRebuild conf)).
      apply in_or_app. left. apply in_or_app. right. left. reflexivity.
Qed.

(** C7. The reference handed to the rebuild is the original URL of the
    build's metadata, then [#], then the configured host; forming it cannot
    fail.  The operation and the extra arguments are the configured ones. *)
Theorem upgrade_target_is_url_hash_host {W} (env : Env W) conf p o p' tr :
  Run env conf p = (o, p', tr) ->
  (forall (m : FlakeMetadata) (host : string),
      Sprintf_s_hash_s (OriginalUrl m) host = OriginalUrl m ++ "#" ++ host)
  /\ forall op flake args r,
      In (EvNixosRebuild op flake args r) tr ->
      exists s t,
        fetched tr = [s; t]
        /\ flake = OriginalUrl t ++ "#" ++ config.Host (config.NixOSRebuild conf)
        /\ op = config.Operation (config.NixOSRebuild conf)
        /\ args = config.Args (config.NixOSRebuild conf).
Proof.
  intros HR. split; [reflexivity |]. apply Run_Path in HR.
  intros op flake args r Hin.
  destruct (Path_upgrade _ _ _ HR)
    as [Ho | (b & s & t & pre0 & tg & r0 & rest & E & _ & _ & _ & Hpre & Hf & _
              & HG & Hrest & _ & _)].
  - apply (only_In _ _ _ Ho) in Hin. simpl in Hin. intuition discriminate.
  - pose proof (Gate_only _ _ _ HG) as Hg. exists s, t. subst tr.
    split.
    + rewrite !fetched_app, Hf. simpl.
      rewrite (fetched_none _ _ Hg), (fetched_none _ _ Hrest); [reflexivity | kinds | kinds].
    + apply in_app_or in Hin. destruct Hin as [Hin | [Hin | Hin]].
      * apply in_app_or in Hin. destruct Hin as [Hin | Hin].
        -- apply (only_In _ _ _ Hpre) in Hin. simpl in Hin. intuition discriminate.
        -- apply in_app_or in Hin. destruct Hin as [Hin | [Hin | []]].
           ++ apply (only_In _ _ _ Hg) in Hin. simpl in Hin. intuition discriminate.
           ++ discriminate.
      * injection Hin as <- <- <- _. auto.
      * apply (only_In _ _ _ Hrest) in Hin. simpl in Hin. intuition discriminate.
Qed.

Lemma app_split_left {A} (P : A -> bool) (l1 l2 : list A) :
  (forall z, In z l2 -> P z = false) ->
  forall pre y post,
    P y = true ->
    (l1 ++ l2 = pre ++ y :: post)%list ->
    exists k, l1 = (pre ++ y :: k)%list /\ post = (k ++ l2)%list.
Proof.
  intros H2. induction l1 as [|a l1 IH]; intros pre y post Hy E; simpl in *.
  - rewrite (H2 y) in Hy; [discriminate |].
    rewrite E. apply in_or_app. right. left. reflexivity.
  - destruct pre as [|b pre]; simpl in E; injection E as E1 E2; subst.
    + exists l1. auto.
    + destruct (IH pre y post Hy E2) as (k & -> & ->). exists k. auto.
Qed.

(** The hosts probed are an initial segment of the hosts given. *)
Lemma Gate_order hosts o t :
  Gate hosts o t -> exists rest, hosts = (map fst (pings t) ++ rest)%list.
Proof.
  induction 1 as [| h hosts o t G [rest IH] | h hosts e | h hosts r Hr]; simpl.
  - exists []. reflexivity.
  - exists rest. rewrite <- IH. reflexivity.
  - exists hosts. reflexivity.
  - exists hosts. reflexivity.
Qed.

(** A failed probe ends the loop: status 1, the host named in the last
    record, every host before it alive, no host after it probed. *)
Lemma Gate_fail_fast hosts o t :
  Gate hosts o t ->
  forall pre h e post,
    t = (pre ++ EvPing h (Returned (Some e)) :: post)%list ->
    o = Exited 1
    /\ post = [info "Ping healthcheck failed. Exiting." [slog.String "host" h]]
    /\ exists before after,
        hosts = (before ++ h :: after)%list
        /\ pings pre = map (fun x => (x, Returned None)) before.
Proof.
  induction 1 as [| h0 hosts o t G IH | h0 hosts e0 | h0 hosts r Hr];
    intros pre h e post E.
  - destruct pre; discriminate.
  - destruct pre as [|a pre]; simpl in E; injection E as E1 E2; [discriminate |].
    subst a. destruct (IH pre h e post E2) as (-> & -> & before & after & -> & Hp).
    split; [reflexivity |]. split; [reflexivity |].
    exists (h0 :: before), after. simpl. rewrite Hp. auto.
  - destruct pre as [|a pre]; simpl in E.
    + inv E. split; [reflexivity |]. split; [reflexivity |].
      exists [], hosts. auto.
    + injection E as _ E. destruct pre as [|a' pre]; simpl in E; [discriminate |].
      injection E as _ E. destruct pre; discriminate.
  - destruct pre as [|a pre]; simpl in E.
    + inv E. discriminate.
    + injection E as _ E. destruct pre; discriminate.
Qed.

Lemma is_dead_ping_kind e : is_dead_ping e = true -> kind e = KPing.
Proof. destruct e; simpl; congruence. Qed.

(** C3. The canary hosts are probed in the order of the list.  A probe
    that returns an error ends the run at once: exit status 1, the host
    named in the last log record, every host before it probed alive, no
    later host probed and no rebuild.  With no canary host the gate passes:
    a run that found a strictly newer target calls the rebuild. *)
Theorem health_gate_is_ordered_and_fail_fast {W} (env : Env W) conf p o p' tr :
  Run env conf p = (o, p', tr) ->
  (exists rest,
      config.CanaryHosts (config.HealthCheck conf) = (map fst (pings tr) ++ rest)%list)
  /\ (forall pre h e post,
        tr = (pre ++ EvPing h (Returned (Some e)) :: post)%list ->
        o = Exited 1
        /\ post = [info "Ping healthcheck failed. Exiting." [slog.String "host" h]]
        /\ exists before after,
            config.CanaryHosts (config.HealthCheck conf) = (before ++ h :: after)%list
            /\ pings pre = map (fun x => (x, Returned None)) before)
  /\ (config.CanaryHosts (config.HealthCheck conf) = [] ->
      forall s t,
        fetched tr = [s; t] ->
        LastModified s < LastModified t ->
        exists r,
          In (EvNixosRebuild (config.Operation (config.NixOSRebuild conf))
                (OriginalUrl t ++ "#" ++ config.Host (config.NixOSRebuild conf))
                (config.Args (config.NixOSRebuild conf)) r) tr).
Proof.
  intros HR. pose proof (Run_Path _ _ _ _ _ _ HR) as HP.
  split; [| split].
  - destruct (Path_cases _ _ _ HP) as [[Ho _] | (s & t & b & pre & td & -> & _ & _ & _ & Hpre & _ & Hd)].
    + rewrite (pings_none _ _ Ho); [| kinds]. eexists. reflexivity.
    + rewrite pings_app, (pings_none _ _ Hpre); [| kinds]. simpl.
      inversion Hd as [Hle | o' t' Hlt HG Hno | tg o' tu Hlt HG HU]; subst.
      * eexists. reflexivity.
      * exact (Gate_order _ _ _ HG).
      * rewrite pings_app, (pings_none _ _ (Upgrade_only _ _ _ _ HU)); [| kinds].
        rewrite app_nil_r. exact (Gate_order _ _ _ HG).
  - intros pre h e post E.
    destruct (Path_cases _ _ _ HP) as [[Ho _] | (s & t & b & pre0 & td & -> & _ & _ & _ & Hpre & _ & Hd)].
    + assert (In (EvPing h (Returned (Some e))) tr) as Hin
        by (rewrite E; apply in_or_app; right; left; reflexivity).
      apply (only_In _ _ _ Ho) in Hin. simpl in Hin. intuition discriminate.
    + destruct (app_split_right is_dead_ping pre0 td
                  (only_kind_false _ _ _ KPing Hpre ltac:(kinds) is_dead_ping_kind)
                  pre (EvPing h (Returned (Some e))) post eq_refl E) as (m & -> & Hm).
      rewrite pings_app, (pings_none _ _ Hpre); [| kinds]. simpl.
      clear HP HR E. revert Hm.
      destruct Hd as [Hle | o' t' Hlt HG Hno | tg o' tu Hlt HG HU]; intros Hm.
      * destruct m as [|a m]; simpl in Hm; [discriminate |].
        injection Hm as _ Hm. destruct m; discriminate.
      * exact (Gate_fail_fast _ _ _ HG _ _ _ _ Hm).
      * destruct (app_split_left is_dead_ping tg tu
                    (only_kind_false _ _ _ KPing (Upgrade_only _ _ _ _ HU)
                       ltac:(kinds) is_dead_ping_kind)
                    m (EvPing h (Returned (Some e))) post eq_refl Hm) as (k & Hk & _).
        destruct (Gate_fail_fast _ _ _ HG _ _ _ _ Hk) as (Habs & _). discriminate.
  - intros Hnil s t Hf Hlt.
    destruct (Path_Reached _ _ _ _ _ HP Hf) as (b & pre & td & -> & _ & _ & _ & _ & _ & Hd).
    pose proof (Decide_proceeds _ _ _ _ _ Hd Hlt) as H. rewrite Hnil in H.
    destruct H as (r & Hin). exists r. apply in_or_app. right. exact Hin.
Qed.

(** ** The build checks *)

Lemma Compare_only conf eval o t :
  Compare conf eval o t -> only [KOutput; KPing; KRebuild; KReboot; KLog] t.
Proof.
  intros H.
  pose proof (only_dbg (config.Debug conf) "hydraMetadata"
                [slog.String "flake" (hydra.Flake eval)]) as Hd.
  inv H; fetch_facts; try only_sub.
  match goal with D : Decide _ _ _ _ _ |- _ => apply Decide_only in D end.
  only_sub.
Qed.

(** What a run does with the latest build it got. *)
Lemma Path_build conf o tr hc b :
  Path conf o tr ->
  In (EvGetLatestBuild hc (Returned b)) tr ->
  hc = hydraClient_of conf
  /\ ((hydra.Finished b <> 1 /\ o = Exited 0
       /\ tr = [EvGetLatestBuild hc (Returned b);
                info "Latest build unfinished. Exiting." []])
      \/ (hydra.Finished b = 1 /\ hydra.BuildStatus b <> 0 /\ o = Exited 1
          /\ tr = [EvGetLatestBuild hc (Returned b);
                   info "Latest build unsuccessful. Exiting."
                     [slog.Int "buildstatus" (hydra.BuildStatus b)]])
      \/ (hydra.Finished b = 1 /\ hydra.BuildStatus b = 0
          /\ exists r rest,
              tr = EvGetLatestBuild hc (Returned b) :: EvGetEval hc b r :: rest
              /\ only [KOutput; KPing; KRebuild; KReboot; KLog] rest)).
Proof.
  intros HP Hin.
  inversion HP as [r Hr | b0 Hfin | b0 Hfin Hst | b0 r Hfin Hst Hr | b0 eval o' t Hfin Hst HC];
    subst; simpl in Hin.
  - destruct Hin as [E | []]. inv E. discriminate.
  - destruct Hin as [E | [E | []]]; inv E. split; [reflexivity |]. left. auto.
  - destruct Hin as [E | [E | []]]; inv E. split; [reflexivity |]. right. left. auto.
  - destruct Hin as [E | [E | []]]; inv E. split; [reflexivity |]. right. right.
    split; [assumption |]. split; [assumption |]. exists r, []. split; [reflexivity | only_list].
  - pose proof (Compare_only _ _ _ _ HC) as Ho.
    destruct Hin as [E | [E | Hin]]; try discriminate.
    + inv E. split; [reflexivity |]. right. right.
      split; [assumption |]. split; [assumption |]. exists (Returned eval), t. auto.
    + apply (only_In _ _ _ Ho) in Hin. simpl in Hin. intuition discriminate.
Qed.

(** C5. When the latest build is not finished, the run ends with exit
    status 0 right after the completion check: the one call it made is the
    query for the latest build. *)
Theorem unfinished_build_is_noop {W} (env : Env W) conf p o p' tr hc b :
  Run env conf p = (o, p', tr) ->
  In (EvGetLatestBuild hc (Returned b)) tr ->
  hydra.Finished b <> 1 ->
  o = Exited 0
  /\ calls tr = [EvGetLatestBuild hc (Returned b)]
  /\ tr = [EvGetLatestBuild hc (Returned b); info "Latest build unfinished. Exiting." []].
Proof.
  intros HR Hin Hfin. apply Run_Path in HR.
  destruct (Path_build _ _ _ _ _ HR Hin)
    as [_ [(_ & -> & ->) | [(Hf & _) | (Hf & _)]]]; try contradiction.
  auto.
Qed.

(** C6. When the latest build is finished with a status other than 0, the
    run ends with exit status 1 right after the status check, reporting
    the status: the one call it made is the query for the latest build. *)
Theorem unsuccessful_build_is_failure {W} (env : Env W) conf p o p' tr hc b :
  Run env conf p = (o, p', tr) ->
  In (EvGetLatestBuild hc (Returned b)) tr ->
  hydra.Finished b = 1 ->
  hydra.BuildStatus b <> 0 ->
  o = Exited 1
  /\ calls tr = [EvGetLatestBuild hc (Returned b)]
  /\ tr = [EvGetLatestBuild hc (Returned b);
           info "Latest build unsuccessful. Exiting."
             [slog.Int "buildstatus" (hydra.BuildStatus b)]].
Proof.
  intros HR Hin Hfin Hst. apply Run_Path in HR.
  destruct (Path_build _ _ _ _ _ HR Hin)
    as [_ [(Hf & _) | [(_ & _ & -> & ->) | (_ & Hs & _)]]]; try contradiction.
  auto.
Qed.

Ltac late_list :=
  unfold late;
  repeat first [ apply Forall_nil
               | apply Forall_cons; [reflexivity |]
               | apply Forall_app; split
               | assumption ].

Lemma late_dbg d msg attrs : late (dbg d msg attrs).
Proof. destruct d; late_list. Qed.

Lemma Fetch_late d f o t : Fetch d f o t -> late t.
Proof. intros H. inv H; late_list; apply late_dbg. Qed.

Lemma Gate_late hosts o t : Gate hosts o t -> late t.
Proof. induction 1; late_list. Qed.

Lemma Upgrade_late conf spec o t : Upgrade conf spec o t -> late t.
Proof. intros H. inv H; late_list. Qed.

Lemma Decide_late conf s t o td : Decide conf s t o td -> late td.
Proof.
  intros H. inv H.
  - late_list.
  - eapply Gate_late; eassumption.
  - apply Forall_app. split; [eapply Gate_late | eapply Upgrade_late]; eassumption.
Qed.

Lemma Compare_late conf eval o t : Compare conf eval o t -> late t.
Proof.
  intros H.
  pose proof (late_dbg (config.Debug conf) "hydraMetadata"
                [slog.String "flake" (hydra.Flake eval)]) as Hd.
  inv H;
    repeat match goal with
    | F : Fetch _ _ _ _ |- _ => apply Fetch_late in F
    | D : Decide _ _ _ _ _ |- _ => apply Decide_late in D
    end; late_list.
Qed.

(** C10. The completion check passes for the value 1 of [Finished] and for
    no other: with any other value the run ends there with exit status 0,
    as for an unfinished build; with 1 the run does not stop as unfinished
    but goes on to the status check, and from there to the exit with
    status 1 or to the evaluation query. *)
Theorem finished_means_exactly_one {W} (env : Env W) conf p o p' tr hc b :
  Run env conf p = (o, p', tr) ->
  In (EvGetLatestBuild hc (Returned b)) tr ->
  (hydra.Finished b <> 1 ->
     o = Exited 0
     /\ tr = [EvGetLatestBuild hc (Returned b); info "Latest build unfinished. Exiting." []])
  /\ (hydra.Finished b = 1 ->
      ~ In (info "Latest build unfinished. Exiting." []) tr
      /\ ((hydra.BuildStatus b <> 0 /\ o = Exited 1)
          \/ (hydra.BuildStatus b = 0 /\ exists r, In (EvGetEval hc b r) tr))).
Proof.
  intros HR Hin. apply Run_Path in HR.
  destruct (Path_build _ _ _ _ _ HR Hin) as [-> Hcases].
  split.
  - intros Hn. destruct Hcases as [(_ & -> & ->) | [(Hf & _) | (Hf & _)]];
      try contradiction. auto.
  - intros Hy. destruct Hcases as [(Hf & _) | [(_ & Hs & -> & ->) | (_ & Hs & r & rest & -> & _)]];
      try contradiction.
    + split; [simpl; intuition discriminate |]. left. auto.
    + split.
      * inversion HR as [| | | b0 r0 _ _ _ | b0 eval o' t _ _ HC]; subst.
        -- simpl. intuition discriminate.
        -- apply Compare_late in HC. intros [E | [E | Hl]]; try discriminate.
           exact (diff_false_true (proj1 (Forall_forall _ _) HC _ Hl)).
      * right. split; [assumption |]. exists r. right. left. reflexivity.
Qed.

(** ** Fetching the metadata *)

Lemma store_fits f v m : fits f v = true -> snd (json.store f v m) = None.
Proof.
  destruct v, f; simpl; try discriminate; try reflexivity.
  destruct (json.ParseInt lit); [reflexivity | discriminate].
Qed.

Lemma store_other f v m :
  (f <> json.fLastModified -> LastModified (fst (json.store f v m)) = LastModified m)
  /\ (f <> json.fOriginalUrl -> OriginalUrl (fst (json.store f v m)) = OriginalUrl m).
Proof.
  destruct v, f; simpl; split; intros H; try reflexivity; try congruence;
    destruct (json.ParseInt lit); reflexivity.
Qed.

(** Members that fit their fields are stored without error, and a field no
    member selects keeps its value. *)
Lemma object_lacks ms :
  forall m saved,
    (forall k v f, In (k, v) ms -> json.lookup_field k = Some f -> fits f v = true) ->
    exists m',
      json.object ms m saved = (m', saved)
      /\ (has_field json.fLastModified ms = false -> LastModified m' = LastModified m)
      /\ (has_field json.fOriginalUrl ms = false -> OriginalUrl m' = OriginalUrl m).
Proof.
  induction ms as [|[k v] ms IH]; intros m saved Hfit; simpl.
  - exists m. auto.
  - assert (forall k v f, In (k, v) ms -> json.lookup_field k = Some f -> fits f v = true)
      as Hfit' by (intros k' v' f' Hin; apply Hfit; right; exact Hin).
    destruct (json.lookup_field k) as [f|] eqn:L.
    + pose proof (store_fits f v m (Hfit k v f (or_introl eq_refl) L)) as Hs.
      destruct (store_other f v m) as [Hlm Hurl].
      destruct (json.store f v m) as [m1 e1]. simpl in *. subst e1.
      destruct (IH m1 (json.saveError saved None) Hfit') as (m' & E & H1 & H2).
      exists m'. rewrite E. split.
      * destruct saved; reflexivity.
      * split; intros Hh; apply orb_false_elim in Hh; destruct Hh as [Hf Hr].
        -- rewrite (H1 Hr). apply Hlm. intros ->. discriminate.
        -- rewrite (H2 Hr). apply Hurl. intros ->. discriminate.
    + destruct (IH m saved Hfit') as (m' & E & H1 & H2).
      exists m'. split; [exact E |]. split; intros Hh; simpl in Hh; auto.
Qed.

Lemma object_selects ms l n u :
  json.ParseInt l = Some n ->
  forall m,
    (forall k v', In (k, v') ms -> json.lookup_field k = Some json.fLastModified ->
                  v' = json.Number l) ->
    (forall k v', In (k, v') ms -> json.lookup_field k = Some json.fOriginalUrl ->
                  v' = json.Str u) ->
    json.object ms m None =
      ({| LastModified := if has_field json.fLastModified ms then n else LastModified m;
          OriginalUrl := if has_field json.fOriginalUrl ms then u else OriginalUrl m |},
       None).
Proof.
  intros Hn. induction ms as [|[k v] ms IH]; intros m H1 H2; simpl.
  - destruct m; reflexivity.
  - assert (forall k v', In (k, v') ms -> json.lookup_field k = Some json.fLastModified ->
                         v' = json.Number l) as H1'
      by (intros k' v' Hin; apply (H1 k'); right; exact Hin).
    assert (forall k v', In (k, v') ms -> json.lookup_field k = Some json.fOriginalUrl ->
                         v' = json.Str u) as H2'
      by (intros k' v' Hin; apply (H2 k'); right; exact Hin).
    destruct (json.lookup_field k) as [[|]|] eqn:L; simpl.
    + rewrite (H1 k v (or_introl eq_refl) L). simpl. rewrite Hn. simpl.
      rewrite (IH _ H1' H2'). simpl.
      destruct (has_field json.fLastModified ms); reflexivity.
    + rewrite (H2 k v (or_introl eq_refl) L). simpl.
      rewrite (IH _ H1' H2'). simpl.
      destruct (has_field json.fOriginalUrl ms); reflexivity.
    + apply (IH _ H1' H2').
Qed.

(** What [GetFlakeMetadata] returns, from the answer of the command. *)
Lemma GetFlakeMetadata_outcome {W} (env : Env W) flake p output err w :
  exec_Output env (nix_flake_metadata flake) (world p) = ((output, err), w) ->
  fst (fst (GetFlakeMetadata env flake p)) =
    match err with
    | Some e => Panicked e
    | None =>
        match json.Unmarshal output zeroFlakeMetadata with
        | (_, Some e) => Panicked e
        | (m, None) => Returned m
        end
    end
  /\ In (EvOutput (nix_flake_metadata flake) output err) (snd (GetFlakeMetadata env flake p)).
Proof.
  intros E. unfold GetFlakeMetadata. unfold_M. fold (nix_flake_metadata flake).
  rewrite E. simpl. destruct err as [e|]; simpl.
  - split; [reflexivity | left; reflexivity].
  - destruct (json.Unmarshal output zeroFlakeMetadata) as [m [e|]]; simpl;
      (split; [reflexivity | left; reflexivity]).
Qed.

(** A command that fails, or whose output does not decode, ends the stage
    it belongs to with a panic. *)
Lemma Fetch_output d f o t cmd output err :
  Fetch d f o t ->
  In (EvOutput cmd output err) t ->
  match failure output err with
  | Some e => o = Panicked e
  | None => exists m, o = Returned m
  end.
Proof.
  intros H Hin. unfold failure. inv H; simpl in Hin.
  - destruct Hin as [E | Hin]; [inv E; reflexivity |].
    destruct d; simpl in Hin; intuition discriminate.
  - destruct Hin as [E | []]. inv E. rewrite H0. reflexivity.
  - destruct Hin as [E | Hin]; [inv E; rewrite H0; simpl; eauto |].
    destruct d; simpl in Hin; intuition discriminate.
Qed.

Lemma Path_output conf o tr cmd output err e :
  Path conf o tr ->
  In (EvOutput cmd output err) tr ->
  failure output err = Some e ->
  o = Panicked e.
Proof.
  intros HP Hin Hfail.
  inversion HP as [r Hr | b0 Hfin | b0 Hfin Hst | b0 r Hfin Hst Hr | b0 eval o' t Hfin Hst HC];
    subst; simpl in Hin; try (intuition discriminate).
  destruct Hin as [E | [E | Hin]]; try discriminate.
  assert (forall d f e0 t1, Fetch d f (Panicked e0) t1 -> In (EvOutput cmd output err) t1 ->
            e0 = e) as Hbad.
  { intros d f e0 t1 HF Hi. pose proof (Fetch_output _ _ _ _ _ _ _ HF Hi) as H.
    rewrite Hfail in H. congruence. }
  assert (forall d f m t1, Fetch d f (Returned m) t1 -> In (EvOutput cmd output err) t1 ->
            False) as Hgood.
  { intros d f m t1 HF Hi. pose proof (Fetch_output _ _ _ _ _ _ _ HF Hi) as H.
    rewrite Hfail in H. discriminate. }
  assert (forall d msg attrs, ~ In (EvOutput cmd output err) (dbg d msg attrs)) as Hdbg.
  { intros d msg attrs Hi. destruct d; simpl in Hi; intuition discriminate. }
  inversion HC as [e1 ts HF | s ts e1 tt_ HF1 HF2 | s ts t' tt_ o'' td HF1 HF2 HD]; subst.
  - f_equal. exact (Hbad _ _ _ _ HF Hin).
  - apply in_app_or in Hin. destruct Hin as [Hin | Hin]; [destruct (Hgood _ _ _ _ HF1 Hin) |].
    apply in_app_or in Hin. destruct Hin as [Hin | Hin]; [destruct (Hdbg _ _ _ Hin) |].
    f_equal. exact (Hbad _ _ _ _ HF2 Hin).
  - apply in_app_or in Hin. destruct Hin as [Hin | Hin]; [destruct (Hgood _ _ _ _ HF1 Hin) |].
    apply in_app_or in Hin. destruct Hin as [Hin | Hin]; [destruct (Hdbg _ _ _ Hin) |].
    apply in_app_or in Hin. destruct Hin as [Hin | Hin]; [destruct (Hgood _ _ _ _ HF2 Hin) |].
    apply Decide_only in HD. apply (only_In _ _ _ HD) in Hin. simpl in Hin.
    intuition discriminate.
Qed.

(** C8. [GetFlakeMetadata] panics with the command's error when the
    command fails, in particular when it exits with a nonzero status, and
    with the decoding error when its output does not decode; otherwise it
    returns the decoded metadata, which for an object holds the integer of
    its [lastModified] member and the string of its [originalUrl] member.
    In a run, either failure ends the run with that panic. *)
Theorem GetFlakeMetadata_fails_or_returns_parsed {W} (env : Env W) flake p output err w :
  exec_Output env (nix_flake_metadata flake) (world p) = ((output, err), w) ->
  let o := fst (fst (GetFlakeMetadata env flake p)) in
  (forall e, err = Some e -> o = Panicked e)
  /\ (forall code, code <> 0 -> err = Some (ExitError code) -> o = Panicked (ExitError code))
  /\ (err = None ->
      forall m e, json.Unmarshal output zeroFlakeMetadata = (m, Some e) -> o = Panicked e)
  /\ (err = None -> json.parse output = None -> o = Panicked SyntaxError)
  /\ (err = None ->
      forall m, json.Unmarshal output zeroFlakeMetadata = (m, None) -> o = Returned m)
  /\ (err = None ->
      forall ms l n u,
        json.parse output = Some (json.Object ms) ->
        selects ms json.fLastModified (json.Number l) ->
        selects ms json.fOriginalUrl (json.Str u) ->
        json.ParseInt l = Some n ->
        o = Returned {| LastModified := n; OriginalUrl := u |})
  /\ (forall conf p0 o' p1 tr,
        Run env conf p0 = (o', p1, tr) ->
        forall cmd output' err',
          In (EvOutput cmd output' err') tr ->
          (forall e, err' = Some e -> o' = Panicked e)
          /\ (err' = None ->
              forall m e, json.Unmarshal output' zeroFlakeMetadata = (m, Some e) ->
                          o' = Panicked e)).
Proof.
  intros E o. destruct (GetFlakeMetadata_outcome env flake p output err w E) as [Ho _].
  fold o in Ho.
  split; [| split; [| split; [| split; [| split; [| split]]]]].
  - intros e ->. exact Ho.
  - intros code _ ->. exact Ho.
  - intros -> m e U. rewrite U in Ho. exact Ho.
  - intros -> Hp. unfold json.Unmarshal in Ho. rewrite Hp in Ho. exact Ho.
  - intros -> m U. rewrite U in Ho. exact Ho.
  - intros -> ms l n u Hp [Hh1 Hs1] [Hh2 Hs2] Hn.
    unfold json.Unmarshal in Ho. rewrite Hp in Ho. simpl in Ho.
    rewrite (object_selects ms l n u Hn zeroFlakeMetadata Hs1 Hs2), Hh1, Hh2 in Ho.
    exact Ho.
  - intros conf p0 o' p1 tr HR cmd output' err' Hin. apply Run_Path in HR. split.
    + intros e ->. exact (Path_output _ _ _ _ _ _ e HR Hin eq_refl).
    + intros -> m e U. apply (Path_output _ _ _ _ _ _ e HR Hin).
      unfold failure. rewrite U. reflexivity.
Qed.

(** C9, as amended. When the command succeeds and prints a JSON object whose members
    for [lastModified] and [originalUrl], where present, hold values that
    fit, [GetFlakeMetadata] returns: a missing member is no error, and
    leaves the timestamp 0 or the URL empty. *)
Theorem missing_fields_do_not_fail {W} (env : Env W) flake p output w ms :
  exec_Output env (nix_flake_metadata flake) (world p) = ((output, None), w) ->
  json.parse output = Some (json.Object ms) ->
  (forall k v f, In (k, v) ms -> json.lookup_field k = Some f -> fits f v = true) ->
  exists m,
    fst (fst (GetFlakeMetadata env flake p)) = Returned m
    /\ (has_field json.fLastModified ms = false -> LastModified m = 0)
    /\ (has_field json.fOriginalUrl ms = false -> OriginalUrl m = "").
Proof.
  intros E Hp Hfit.
  destruct (GetFlakeMetadata_outcome env flake p output None w E) as [Ho _].
  unfold json.Unmarshal in Ho. rewrite Hp in Ho. simpl in Ho.
  destruct (object_lacks ms zeroFlakeMetadata None Hfit) as (m & Eo & H1 & H2).
  rewrite Eo in Ho. exists m. auto.
Qed.


(** ** The theorems on the example scenarios *)

Lemma run_eta {A B C} (r : A * B * C) : r = (fst (fst r), snd (fst r), snd r).
Proof. destruct r as [[a b] c]. reflexivity. Qed.

(** The decoder on a few outputs: the two fields with members it does
    not know, keys in another case, a fraction for the timestamp, an
    integer outside int64, text that is not JSON. *)

Example Unmarshal_expected :
  json.Unmarshal
    ("{" ++ quoted "description" ++ ":" ++ quoted "my flake" ++ ","
         ++ quoted "lastModified" ++ ": 1700000000, "
         ++ quoted "locks" ++ ":{" ++ quoted "nodes" ++ ":[1, 2.5e3, true, null]},"
         ++ quoted "originalUrl" ++ ":" ++ quoted "github:example/flake" ++ "}")
    zeroFlakeMetadata
  = ({| LastModified := 1700000000; OriginalUrl := "github:example/flake" |}, None).
Proof. vm_compute. reflexivity. Qed.

Example Unmarshal_folded_keys :
  json.Unmarshal
    ("{" ++ quoted "LASTMODIFIED" ++ ":-5," ++ quoted "originalurl" ++ ":" ++ quoted "a" ++ "}")
    zeroFlakeMetadata
  = ({| LastModified := -5; OriginalUrl := "a" |}, None).
Proof. vm_compute. reflexivity. Qed.

Example Unmarshal_fraction :
  json.Unmarshal ("{" ++ quoted "lastModified" ++ ":1.0}") zeroFlakeMetadata
  = (zeroFlakeMetadata, Some (UnmarshalTypeError "number 1.0" "lastModified")).
Proof. vm_compute. reflexivity. Qed.

Example Unmarshal_out_of_range :
  json.Unmarshal ("{" ++ quoted "lastModified" ++ ":9223372036854775808}") zeroFlakeMetadata
  = (zeroFlakeMetadata,
     Some (UnmarshalTypeError "number 9223372036854775808" "lastModified")).
Proof. vm_compute. reflexivity. Qed.

Example Unmarshal_not_json :
  json.Unmarshal "error: getting status of flake.nix" zeroFlakeMetadata
  = (zeroFlakeMetadata, Some SyntaxError).
Proof. vm_compute. reflexivity. Qed.

Example Unmarshal_escapes :
  json.parse (quoted "aé\n😀\ud83dz")
  = Some (json.Str ("a" ++ json.EncodeRune 233 ++ String (json.chr 10) ""
                        ++ json.EncodeRune 128512 ++ json.EncodeRune 65533 ++ "z")).
Proof. vm_compute. reflexivity. Qed.

(** The example scenarios: the outcome of the run and the kinds of its
    calls, in order. *)

(** self 100, target 100: exit 0, no rebuild. *)
Example scenario_up_to_date :
  summary (Run env_up_to_date (demo_conf ["host1"] false) start)
  = (Exited 0, [KBuild; KEval; KOutput; KOutput]).
Proof. vm_compute. reflexivity. Qed.

(** build not finished: exit 0, no further call. *)
Example scenario_unfinished :
  summary (Run (env_build {| hydra.Finished := 0; hydra.BuildStatus := 0 |})
             (demo_conf ["host1"] false) start)
  = (Exited 0, [KBuild]).
Proof. vm_compute. reflexivity. Qed.

(** build finished with status 1: exit 1, no further call. *)
Example scenario_unsuccessful :
  summary (Run (env_build {| hydra.Finished := 1; hydra.BuildStatus := 1 |})
             (demo_conf ["host1"] false) start)
  = (Exited 1, [KBuild]).
Proof. vm_compute. reflexivity. Qed.

(** self 100, target 200, host1 alive: the rebuild is called with the
    URL of the target and the host, and the run returns. *)
Example scenario_upgrade :
  summary (Run env_newer (demo_conf ["host1"] false) start)
  = (Returned tt, [KBuild; KEval; KOutput; KOutput; KPing; KRebuild])
  /\ In (EvNixosRebuild "boot" "github:example/flake#myhost" ["--verbose"] (Returned tt))
        (snd (Run env_newer (demo_conf ["host1"] false) start)).
Proof. vm_compute. split; [reflexivity | do 6 right; left; reflexivity]. Qed.

(** self 100, target 200, bad-host dead: exit 1, no rebuild, host3 not
    probed. *)
Example scenario_dead_host :
  summary (Run env_dead_host (demo_conf ["host1"; "bad-host"; "host3"] false) start)
  = (Exited 1, [KBuild; KEval; KOutput; KOutput; KPing; KPing])
  /\ map fst (pings (snd (Run env_dead_host
                            (demo_conf ["host1"; "bad-host"; "host3"] false) start)))
     = ["host1"; "bad-host"].
Proof. vm_compute. split; reflexivity. Qed.

(** as [scenario_upgrade], with the reboot flag: one reboot, last. *)
Example scenario_reboot :
  summary (Run env_newer (demo_conf ["host1"] true) start)
  = (Returned tt, [KBuild; KEval; KOutput; KOutput; KPing; KRebuild; KReboot]).
Proof. vm_compute. reflexivity. Qed.

(** Scenario: self and target both at 100; the run exits with 0. *)
Lemma freshness_comparison_is_strict_witness :
  let r := Run env_up_to_date (demo_conf ["host1"] true) start in
  fetched (snd r) = [meta 100; meta 100]
  /\ fst (fst r) = Exited 0.
Proof.
  cbv zeta.
  assert (fetched (snd (Run env_up_to_date (demo_conf ["host1"] true) start))
          = [meta 100; meta 100]) as Hf by (vm_compute; reflexivity).
  assert (LastModified (meta 100) <= LastModified (meta 100)) as Hle
    by (vm_compute; discriminate).
  exact (conj Hf
           (proj1 (proj1 (freshness_comparison_is_strict env_up_to_date
                            (demo_conf ["host1"] true) start _ _ _ (meta 100) (meta 100)
                            (run_eta _) Hf) Hle))).
Defined.

(** Scenario: target newer, host alive; the rebuild is called once, after
    the probe of the host. *)
Lemma upgrade_once_after_all_gates_witness :
  let r := Run env_newer (demo_conf ["host1"] true) start in
  (List.length (filter is_rebuild (snd r)) <= 1)%nat
  /\ pings (firstn 6 (snd r)) = [("host1", Returned None)].
Proof.
  cbv zeta.
  assert (snd (Run env_newer (demo_conf ["host1"] true) start)
          = (firstn 6 (snd (Run env_newer (demo_conf ["host1"] true) start))
             ++ EvNixosRebuild "boot" "github:example/flake#myhost" ["--verbose"] (Returned tt)
             :: skipn 7 (snd (Run env_newer (demo_conf ["host1"] true) start)))%list) as Hsplit
    by (vm_compute; reflexivity).
  pose proof (upgrade_once_after_all_gates env_newer (demo_conf ["host1"] true) start
                _ _ _ (run_eta _)) as H.
  exact (conj (proj1 H) (proj2 (proj2 (proj2 H _ _ _ Hsplit eq_refl)))).
Defined.

(** Scenario: hosts [host1; bad-host; host3] with bad-host dead; the run
    exits with 1 naming bad-host, and host3 is not probed. *)
Lemma health_gate_is_ordered_and_fail_fast_witness :
  let r := Run env_dead_host (demo_conf ["host1"; "bad-host"; "host3"] true) start in
  fst (fst r) = Exited 1
  /\ skipn 6 (snd r) = [info "Ping healthcheck failed. Exiting." [slog.String "host" "bad-host"]].
Proof.
  cbv zeta.
  assert (snd (Run env_dead_host (demo_conf ["host1"; "bad-host"; "host3"] true) start)
          = (firstn 5 (snd (Run env_dead_host
                              (demo_conf ["host1"; "bad-host"; "host3"] true) start))
             ++ EvPing "bad-host" (Returned (Some (OtherError "no reply")))
             :: skipn 6 (snd (Run env_dead_host
                                (demo_conf ["host1"; "bad-host"; "host3"] true) start)))%list)
    as Hsplit by (vm_compute; reflexivity).
  pose proof (health_gate_is_ordered_and_fail_fast env_dead_host
                (demo_conf ["host1"; "bad-host"; "host3"] true) start _ _ _ (run_eta _)) as H.
  pose proof (proj1 (proj2 H) _ _ _ _ Hsplit) as Hfail.
  exact (conj (proj1 Hfail) (proj1 (proj2 Hfail))).
Defined.

(** Scenario: target newer, host alive, reboot flag set; the reboot is
    called. *)
Lemma reboot_iff_upgraded_and_flag_witness :
  let r := Run env_newer (demo_conf ["host1"] true) start in
  exists x, In (EvReboot x) (snd r).
Proof.
  intro r.
  assert (In (EvNixosRebuild "boot" "github:example/flake#myhost" ["--verbose"] (Returned tt))
            (snd r)) as Hin
    by (vm_compute; do 6 right; left; reflexivity).
  assert (exists op flake args, In (EvNixosRebuild op flake args (Returned tt)) (snd r)) as Hex
    by (exists "boot", "github:example/flake#myhost", ["--verbose"]; exact Hin).
  assert (config.Reboot (demo_conf ["host1"] true) = true) as Hflag by reflexivity.
  pose proof (reboot_iff_upgraded_and_flag env_newer (demo_conf ["host1"] true) start
                (fst (fst r)) (snd (fst r)) (snd r) (run_eta r)) as H.
  exact (proj2 (proj1 H) (conj Hflag Hex)).
Defined.

(** Scenario: the latest build is not finished; the run exits with 0 after
    the one query. *)
Lemma unfinished_build_is_noop_witness :
  let b := {| hydra.Finished := 0; hydra.BuildStatus := 0 |} in
  let r := Run (env_build b) (demo_conf ["host1"] true) start in
  fst (fst r) = Exited 0
  /\ calls (snd r) = [EvGetLatestBuild demo_client (Returned b)].
Proof.
  cbv zeta.
  assert (In (EvGetLatestBuild demo_client
                (Returned {| hydra.Finished := 0; hydra.BuildStatus := 0 |}))
            (snd (Run (env_build {| hydra.Finished := 0; hydra.BuildStatus := 0 |})
                    (demo_conf ["host1"] true) start))) as Hin
    by (vm_compute; left; reflexivity).
  assert (hydra.Finished {| hydra.Finished := 0; hydra.BuildStatus := 0 |} <> 1) as Hfin
    by (vm_compute; discriminate).
  pose proof (unfinished_build_is_noop _ _ _ _ _ _ _ _ (run_eta _) Hin Hfin) as H.
  exact (conj (proj1 H) (proj1 (proj2 H))).
Defined.

(** Scenario: the latest build is finished with status 1; the run exits
    with 1 after the one query. *)
Lemma unsuccessful_build_is_failure_witness :
  let b := {| hydra.Finished := 1; hydra.BuildStatus := 1 |} in
  let r := Run (env_build b) (demo_conf ["host1"] true) start in
  fst (fst r) = Exited 1
  /\ calls (snd r) = [EvGetLatestBuild demo_client (Returned b)].
Proof.
  cbv zeta.
  assert (In (EvGetLatestBuild demo_client
                (Returned {| hydra.Finished := 1; hydra.BuildStatus := 1 |}))
            (snd (Run (env_build {| hydra.Finished := 1; hydra.BuildStatus := 1 |})
                    (demo_conf ["host1"] true) start))) as Hin
    by (vm_compute; left; reflexivity).
  assert (hydra.BuildStatus {| hydra.Finished := 1; hydra.BuildStatus := 1 |} <> 0) as Hst
    by (vm_compute; discriminate).
  pose proof (unsuccessful_build_is_failure _ _ _ _ _ _ _ _ (run_eta _) Hin eq_refl Hst) as H.
  exact (conj (proj1 H) (proj1 (proj2 H))).
Defined.

(** Scenario: target newer; the rebuild gets the URL of the target, [#],
    and the host. *)
Lemma upgrade_target_is_url_hash_host_witness :
  let r := Run env_newer (demo_conf ["host1"] false) start in
  exists s t,
    fetched (snd r) = [s; t]
    /\ "github:example/flake#myhost" = OriginalUrl t ++ "#" ++ "myhost".
Proof.
  cbv zeta.
  assert (In (EvNixosRebuild "boot" "github:example/flake#myhost" ["--verbose"] (Returned tt))
            (snd (Run env_newer (demo_conf ["host1"] false) start))) as Hin
    by (vm_compute; do 6 right; left; reflexivity).
  pose proof (upgrade_target_is_url_hash_host env_newer (demo_conf ["host1"] false) start
                _ _ _ (run_eta _)) as H.
  destruct (proj2 H _ _ _ _ Hin) as (s & t & Hf & Hspec & _).
  exact (ex_intro _ s (ex_intro _ t (conj Hf Hspec))).
Defined.

(** Scenario: the command prints the two fields; they are returned. *)
Lemma GetFlakeMetadata_fails_or_returns_parsed_witness :
  fst (fst (GetFlakeMetadata env_newer "self" start)) = Returned (meta 100).
Proof.
  assert (exec_Output env_newer (nix_flake_metadata "self") (world start)
          = ((fst (meta_json "100"), None), 1%nat)) as Hout by (vm_compute; reflexivity).
  assert (json.Unmarshal (fst (meta_json "100")) zeroFlakeMetadata = (meta 100, None)) as Hdec
    by (vm_compute; reflexivity).
  pose proof (GetFlakeMetadata_fails_or_returns_parsed env_newer "self" start _ _ _ Hout) as H.
  exact (proj1 (proj2 (proj2 (proj2 (proj2 H)))) eq_refl _ Hdec).
Defined.

(** Scenario: [Finished] is 2; the run exits with 0 as for an unfinished
    build. *)
Lemma finished_means_exactly_one_witness :
  let b := {| hydra.Finished := 2; hydra.BuildStatus := 0 |} in
  let r := Run (env_build b) (demo_conf ["host1"] true) start in
  fst (fst r) = Exited 0
  /\ snd r = [EvGetLatestBuild demo_client (Returned b);
              info "Latest build unfinished. Exiting." []].
Proof.
  cbv zeta.
  assert (In (EvGetLatestBuild demo_client
                (Returned {| hydra.Finished := 2; hydra.BuildStatus := 0 |}))
            (snd (Run (env_build {| hydra.Finished := 2; hydra.BuildStatus := 0 |})
                    (demo_conf ["host1"] true) start))) as Hin
    by (vm_compute; left; reflexivity).
  assert (hydra.Finished {| hydra.Finished := 2; hydra.BuildStatus := 0 |} <> 1) as Hfin
    by (vm_compute; discriminate).
  pose proof (finished_means_exactly_one _ _ _ _ _ _ _ _ (run_eta _) Hin) as H.
  exact (proj1 H Hfin).
Defined.

(** Scenario: the command prints an object with a description and
    [lastModified] only; the URL is empty and nothing fails. *)
Lemma missing_fields_do_not_fail_witness :
  let env := demo_env ok_build (json_without_url, None) (json_without_url, None) [] in
  exists m,
    fst (fst (GetFlakeMetadata env "self" start)) = Returned m
    /\ OriginalUrl m = "".
Proof.
  cbv zeta.
  assert (exec_Output (demo_env ok_build (json_without_url, None) (json_without_url, None) [])
            (nix_flake_metadata "self") (world start)
          = ((json_without_url, None), 1%nat)) as Hout by (vm_compute; reflexivity).
  assert (json.parse json_without_url
          = Some (json.Object [("description", json.Str "a flake");
                               ("lastModified", json.Number "5")])) as Hp
    by (vm_compute; reflexivity).
  assert (forall k v f,
            In (k, v) [("description", json.Str "a flake"); ("lastModified", json.Number "5")] ->
            json.lookup_field k = Some f -> fits f v = true) as Hfit.
  { intros k v f [E | [E | []]] L; inversion E; subst k v; vm_compute in L;
      [discriminate | inversion L; reflexivity]. }
  assert (has_field json.fOriginalUrl
            [("description", json.Str "a flake"); ("lastModified", json.Number "5")] = false)
    as Hlack by (vm_compute; reflexivity).
  destruct (missing_fields_do_not_fail _ _ _ _ _ _ Hout Hp Hfit) as (m & Hm & _ & Hurl).
  exact (ex_intro _ m (conj Hm (Hurl Hlack))).
Defined.

(** The output may be well-formed JSON without the fields and still make
    [GetFlakeMetadata] panic: an object that lacks [lastModified] but whose
    [originalUrl] is a number, and an array. *)
Lemma missing_fields_counterexample :
  let bad := json_url_number in
  let arr := "[]" in
  (json.parse bad = Some (json.Object [("originalUrl", json.Number "5")])
   /\ has_field json.fLastModified [("originalUrl", json.Number "5")] = false
   /\ exec_Output (demo_env ok_build (bad, None) (bad, None) [])
        (nix_flake_metadata "self") (world start) = ((bad, None), 1%nat)
   /\ fst (fst (GetFlakeMetadata (demo_env ok_build (bad, None) (bad, None) []) "self" start))
      = Panicked (UnmarshalTypeError "number" "originalUrl"))
  /\ (json.parse arr = Some (json.Array [])
      /\ exec_Output (demo_env ok_build (arr, None) (arr, None) [])
           (nix_flake_metadata "self") (world start) = ((arr, None), 1%nat)
      /\ fst (fst (GetFlakeMetadata (demo_env ok_build (arr, None) (arr, None) []) "self" start))
         = Panicked (UnmarshalTypeError "array" "")).
Proof. vm_compute. repeat split. Qed.

(** * Further properties of the code *)

(** ** The order of the calls of a run *)

Lemma calls_dbg d msg attrs : calls (dbg d msg attrs) = [].
Proof. destruct d; reflexivity. Qed.

Lemma Fetch_calls d f o t : Fetch d f o t -> map kind (calls t) = [KOutput].
Proof. intros H. inv H; try destruct d; reflexivity. Qed.

Lemma Gate_calls hosts o t :
  Gate hosts o t ->
  exists n,
    map kind (calls t) = repeat KPing n
    /\ (n <= List.length hosts)%nat
    /\ (o = Returned tt -> n = List.length hosts).
Proof.
  induction 1 as [| h hosts o t G (n & E & Hn & Hall) | h hosts e | h hosts r Hr].
  - exists O. simpl. auto.
  - exists (S n).
    change (calls (EvPing h (Returned None) :: t)) with (EvPing h (Returned None) :: calls t).
    simpl. rewrite E. split; [reflexivity |].
    split; [lia |]. intros Ho. rewrite (Hall Ho). reflexivity.
  - exists 1%nat. simpl. split; [reflexivity |]. split; [lia | discriminate].
  - exists 1%nat. simpl. split; [reflexivity |]. split; [lia |].
    destruct r; simpl in *; discriminate.
Qed.

Lemma Upgrade_calls conf spec o t :
  Upgrade conf spec o t ->
  exists nb, map kind (calls t) = KRebuild :: repeat KReboot nb /\ (nb <= 1)%nat.
Proof.
  intros H. inv H.
  - exists O. simpl. auto.
  - exists O. simpl. auto.
  - exists 1%nat. simpl. auto.
Qed.

(** X1. The calls of a run come in one fixed order, none skipped: the
    query for the latest build, then the query for its evaluation, then at
    most two metadata commands, then the probes, then the rebuild, then
    the reboot.  The rebuild comes only after both commands and a probe of
    every configured host, the reboot only after the rebuild. *)
Theorem calls_in_order {W} (env : Env W) conf p :
  exists ne no np nr nb,
    map kind (calls (snd (Run env conf p)))
    = (KBuild :: repeat KEval ne ++ repeat KOutput no ++ repeat KPing np
         ++ repeat KRebuild nr ++ repeat KReboot nb)%list
    /\ (ne <= 1)%nat /\ (no <= 2)%nat
    /\ (np <= List.length (config.CanaryHosts (config.HealthCheck conf)))%nat
    /\ (nr <= 1)%nat /\ (nb <= nr)%nat
    /\ ((1 <= no)%nat -> ne = 1%nat)
    /\ ((1 <= np)%nat -> no = 2%nat)
    /\ (nr = 1%nat ->
        no = 2%nat /\ np = List.length (config.CanaryHosts (config.HealthCheck conf))).
Proof.
  destruct (Run env conf p) as [[o p'] tr] eqn:HR. apply Run_Path in HR. simpl.
  inversion HR as [r Hr | b0 Hfin | b0 Hfin Hst | b0 r Hfin Hst Hr | b0 eval o' t Hfin Hst HC];
    subst; simpl.
  - exists O, O, O, O, O. simpl. repeat split; auto; lia.
  - exists O, O, O, O, O. simpl. repeat split; auto; lia.
  - exists O, O, O, O, O. simpl. repeat split; auto; lia.
  - exists 1%nat, O, O, O, O. simpl. repeat split; auto; lia.
  - fold (calls t).
    inversion HC as [e ts HF | s ts e tt_ HF1 HF2 | s ts t' tt_ o'' td HF1 HF2 HD]; subst.
    + rewrite (Fetch_calls _ _ _ _ HF).
      exists 1%nat, 1%nat, O, O, O. simpl. repeat split; auto; lia.
    + rewrite !calls_app, calls_dbg, !map_app, (Fetch_calls _ _ _ _ HF1),
        (Fetch_calls _ _ _ _ HF2).
      exists 1%nat, 2%nat, O, O, O. simpl. repeat split; auto; lia.
    + rewrite !calls_app, calls_dbg, !map_app, (Fetch_calls _ _ _ _ HF1),
        (Fetch_calls _ _ _ _ HF2). simpl.
      inversion HD as [Hle | o3 t3 Hlt HG Hno | tg o3 tu Hlt HG HU]; subst.
      * exists 1%nat, 2%nat, O, O, O. simpl. repeat split; auto; lia.
      * destruct (Gate_calls _ _ _ HG) as (n & E & Hn & _). rewrite E.
        exists 1%nat, 2%nat, n, O, O. simpl. rewrite app_nil_r.
        repeat split; auto; lia.
      * destruct (Gate_calls _ _ _ HG) as (n & E & Hn & Hall).
        destruct (Upgrade_calls _ _ _ _ HU) as (nb & E2 & Hnb).
        rewrite calls_app, map_app, E, E2.
        exists 1%nat, 2%nat, n, 1%nat, nb. simpl.
        repeat split; auto; lia.
Qed.

(** ** A call that ends the process ends the run *)

Lemma quiet_final o t : quiet t -> final o t.
Proof.
  intros Hq pre e post o' E Hs. exfalso.
  assert (In e t) as Hin by (rewrite E; apply in_or_app; right; left; reflexivity).
  rewrite (proj1 (Forall_forall _ _) Hq e Hin) in Hs. discriminate.
Qed.

Lemma final_app o t1 t2 : quiet t1 -> final o t2 -> final o (t1 ++ t2).
Proof.
  intros Hq Hf pre e post o' E Hs.
  destruct (app_split_right (fun x => match stopped x with Some _ => true | None => false end)
              t1 t2) with (pre := pre) (y := e) (post := post) as (m & _ & E2).
  - intros z Hz. rewrite (proj1 (Forall_forall _ _) Hq z Hz). reflexivity.
  - rewrite Hs. reflexivity.
  - exact E.
  - exact (Hf m e post o' E2 Hs).
Qed.

Lemma final_cons o e t : stopped e = None -> final o t -> final o (e :: t).
Proof.
  intros He Hf. apply (final_app o [e] t); [| exact Hf].
  constructor; [exact He | constructor].
Qed.

Lemma final_last o e : stopped e = Some o -> final o [e].
Proof.
  intros He pre x post o' E Hs.
  destruct pre as [|a pre]; simpl in E.
  - injection E as <- <-. split; [reflexivity | congruence].
  - injection E as _ E. destruct pre; discriminate.
Qed.

Lemma quiet_app t1 t2 : quiet t1 -> quiet t2 -> quiet (t1 ++ t2).
Proof. intros H1 H2. apply Forall_app. split; assumption. Qed.

Lemma quiet_dbg d msg attrs : quiet (dbg d msg attrs).
Proof. destruct d; repeat constructor. Qed.

Lemma Fetch_quiet d f o t : Fetch d f o t -> quiet t.
Proof.
  intros H. inv H.
  - constructor; [reflexivity | apply quiet_dbg].
  - repeat constructor.
  - constructor; [reflexivity | apply quiet_dbg].
Qed.

Lemma stop_unit (r : Outcome unit) : is_returned r = false -> stop r = r.
Proof. destruct r as [[]|c|e]; simpl; [discriminate | reflexivity | reflexivity]. Qed.

Lemma Gate_final hosts o t : Gate hosts o t -> final o t.
Proof.
  induction 1 as [| h hosts o t G IH | h hosts e | h hosts r Hr].
  - apply quiet_final. constructor.
  - apply final_cons; [reflexivity | exact IH].
  - apply quiet_final. repeat constructor.
  - apply final_last. simpl. rewrite Hr. reflexivity.
Qed.

Lemma Gate_pass_quiet hosts t : Gate hosts (Returned tt) t -> quiet t.
Proof.
  remember (Returned tt) as o eqn:Ho. induction 1 as [| h hosts o t G IH | |h hosts r Hr].
  - constructor.
  - constructor; [reflexivity | exact (IH Ho)].
  - discriminate.
  - destruct r; simpl in *; discriminate.
Qed.

Lemma Upgrade_final conf spec o t : Upgrade conf spec o t -> final o t.
Proof.
  intros H. inv H.
  - apply final_cons; [reflexivity |]. apply final_last. simpl.
    match goal with Hr : is_returned _ = false |- _ => rewrite Hr end. reflexivity.
  - apply quiet_final. repeat constructor.
  - do 4 (apply final_cons; [reflexivity |]).
    destruct (is_returned o) eqn:Hr.
    + apply quiet_final. constructor; [simpl; rewrite Hr; reflexivity | constructor].
    + apply final_last. simpl. rewrite Hr, (stop_unit o Hr). reflexivity.
Qed.

Lemma Decide_final conf s t o td : Decide conf s t o td -> final o td.
Proof.
  intros H. inversion H as [Hle | o' t' Hlt HG Hno | tg o' tu Hlt HG HU]; subst.
  - apply quiet_final. repeat constructor.
  - exact (Gate_final _ _ _ HG).
  - apply final_app; [exact (Gate_pass_quiet _ _ HG) | exact (Upgrade_final _ _ _ _ HU)].
Qed.

Lemma Path_final conf o tr : Path conf o tr -> final o tr.
Proof.
  intros HP.
  inversion HP as [r Hr | b0 Hfin | b0 Hfin Hst | b0 r Hfin Hst Hr | b0 eval o' t Hfin Hst HC];
    subst.
  - apply final_last. simpl. rewrite Hr. reflexivity.
  - apply quiet_final. repeat constructor.
  - apply quiet_final. repeat constructor.
  - apply final_cons; [reflexivity |]. apply final_last. simpl. rewrite Hr. reflexivity.
  - do 2 (apply final_cons; [reflexivity |]).
    inversion HC as [e ts HF | s ts e tt_ HF1 HF2 | s ts t' tt_ o'' td HF1 HF2 HD]; subst.
    + apply quiet_final. exact (Fetch_quiet _ _ _ _ HF).
    + apply quiet_final.
      repeat apply quiet_app;
        first [exact (Fetch_quiet _ _ _ _ HF1) | exact (Fetch_quiet _ _ _ _ HF2)
              | apply quiet_dbg].
    + repeat (apply final_app;
              [first [exact (Fetch_quiet _ _ _ _ HF1) | exact (Fetch_quiet _ _ _ _ HF2)
                     | apply quiet_dbg] |]).
      exact (Decide_final _ _ _ _ _ HD).
Qed.

(** X2. When a call to the build status source, to the probe, to the
    rebuild or to the reboot ends the process (an exit or a panic inside
    the call), that call is the last event of the run and the run ends the
    way the call did: nothing is retried and nothing follows. *)
Theorem call_that_ends_the_process_is_last {W} (env : Env W) conf p o p' tr pre e post o' :
  Run env conf p = (o, p', tr) ->
  tr = (pre ++ e :: post)%list ->
  stopped e = Some o' ->
  post = [] /\ o = o'.
Proof.
  intros HR E Hs. apply Run_Path in HR. exact (Path_final _ _ _ HR pre e post o' E Hs).
Qed.

(** ** What is queried and fetched *)

(** X3. The evaluation is queried only for the build the status source
    returned, after that build passed both checks ([Finished] is 1 and
    [BuildStatus] is 0), with the client of the configuration, and as the
    second call of the run. *)
Theorem evaluation_is_of_the_successful_build {W} (env : Env W) conf p o p' tr c b r :
  Run env conf p = (o, p', tr) ->
  In (EvGetEval c b r) tr ->
  c = hydraClient_of conf
  /\ hydra.Finished b = 1 /\ hydra.BuildStatus b = 0
  /\ exists rest, tr = EvGetLatestBuild c (Returned b) :: EvGetEval c b r :: rest.
Proof.
  intros HR Hin. apply Run_Path in HR.
  inversion HR as [r0 Hr | b0 Hfin | b0 Hfin Hst | b0 r0 Hfin Hst Hr | b0 eval o' t Hfin Hst HC];
    subst; simpl in Hin.
  - destruct Hin as [E | []]. discriminate.
  - destruct Hin as [E | [E | []]]; discriminate.
  - destruct Hin as [E | [E | []]]; discriminate.
  - destruct Hin as [E | [E | []]]; [discriminate |]. inv E. eauto 6.
  - destruct Hin as [E | [E | Hin]]; [discriminate | |].
    + inv E. eauto 6.
    + apply (only_In _ _ _ (Compare_only _ _ _ _ HC)) in Hin. simpl in Hin.
      intuition discriminate.
Qed.





(** ** The log records of a run *)

Ltac levels_list :=
  unfold levels;
  repeat first [ apply Forall_nil
               | apply Forall_cons; [simpl; auto |]
               | apply Forall_app; split
               | assumption ].

Lemma levels_dbg d msg attrs : levels d (dbg d msg attrs).
Proof. destruct d; levels_list. Qed.

Lemma Fetch_levels d f o t : Fetch d f o t -> levels d t.
Proof. intros H. inv H; levels_list; apply levels_dbg. Qed.

Lemma Gate_levels d hosts o t : Gate hosts o t -> levels d t.
Proof. induction 1; levels_list. Qed.

Lemma Upgrade_levels d conf spec o t : Upgrade conf spec o t -> levels d t.
Proof. intros H. inv H; levels_list. Qed.

Lemma Decide_levels d conf s t o td : Decide conf s t o td -> levels d td.
Proof.
  intros H. inv H.
  - levels_list.
  - eapply Gate_levels; eassumption.
  - apply Forall_app. split; [eapply Gate_levels | eapply Upgrade_levels]; eassumption.
Qed.

Lemma Path_levels conf o tr : Path conf o tr -> levels (config.Debug conf) tr.
Proof.
  intros HP.
  inversion HP as [r Hr | b0 Hfin | b0 Hfin Hst | b0 r Hfin Hst Hr | b0 eval o' t Hfin Hst HC];
    subst; try (levels_list; fail).
  pose proof (levels_dbg (config.Debug conf) "hydraMetadata"
                [slog.String "flake" (hydra.Flake eval)]) as Hd.
  inversion HC as [e ts HF | s ts e tt_ HF1 HF2 | s ts t' tt_ o'' td HF1 HF2 HD]; subst;
    repeat match goal with
    | F : Fetch _ _ _ _ |- _ => apply Fetch_levels in F
    | D : Decide _ _ _ _ _ |- _ => apply (Decide_levels (config.Debug conf)) in D
    end; levels_list.
Qed.

Lemma Fetch_logs_metadata f m t :
  Fetch true f (Returned m) t -> In (EvLog slog.LevelDebug (Sprintf_plus_v m) []) t.
Proof. intros H. inv H. right. left. reflexivity. Qed.

(** X5. The level of the logger is set from the configuration before
    anything is logged, whatever it was when the run started: every record
    of a run is at Info level, or at Debug level with debug logging on.
    With debug logging on, every metadata that was fetched is logged. *)
Theorem log_level_follows_the_configuration {W} (env : Env W) conf p o p' tr :
  Run env conf p = (o, p', tr) ->
  (forall level msg attrs,
      In (EvLog level msg attrs) tr ->
      level = slog.LevelInfo \/ (level = slog.LevelDebug /\ config.Debug conf = true))
  /\ (config.Debug conf = true ->
      forall m, In m (fetched tr) -> In (EvLog slog.LevelDebug (Sprintf_plus_v m) []) tr).
Proof.
  intros HR. apply Run_Path in HR. split.
  - intros level msg attrs Hin.
    exact (proj1 (Forall_forall _ _) (Path_levels _ _ _ HR) _ Hin).
  - intros Hdbg m Hm.
    inversion HR as [r Hr | b0 Hfin | b0 Hfin Hst | b0 r Hfin Hst Hr | b0 eval o' t Hfin Hst HC];
      subst; simpl in Hm; try contradiction.
    inversion HC as [e ts HF | s ts e tt_ HF1 HF2 | s ts t' tt_ o'' td HF1 HF2 HD]; subst;
      rewrite Hdbg in *.
    + rewrite (Fetch_fetched _ _ _ _ HF) in Hm. contradiction.
    + rewrite !fetched_app, (Fetch_fetched _ _ _ _ HF1), (Fetch_fetched _ _ _ _ HF2),
        fetched_dbg in Hm. simpl in Hm. destruct Hm as [<- | []].
      do 2 right. apply in_or_app. left. exact (Fetch_logs_metadata _ _ _ HF1).
    + rewrite !fetched_app, (Fetch_fetched _ _ _ _ HF1), (Fetch_fetched _ _ _ _ HF2),
        fetched_dbg in Hm.
      rewrite (fetched_none _ _ (Decide_only _ _ _ _ _ HD)) in Hm; [| kinds].
      simpl in Hm. do 2 right. destruct Hm as [<- | [<- | []]].
      * apply in_or_app. left. exact (Fetch_logs_metadata _ _ _ HF1).
      * apply in_or_app. right. apply in_or_app. right. apply in_or_app. left.
        exact (Fetch_logs_metadata _ _ _ HF2).
Qed.

(** ** How a run ends *)

Lemma ExitCause_app c t1 t2 : ExitCause c t2 -> ExitCause c (t1 ++ t2).
Proof.
  intros [(pre & e & -> & Hs) | (pre & msg & attrs & -> & Ha)].
  - left. exists (t1 ++ pre)%list, e. rewrite app_assoc. auto.
  - right. exists (t1 ++ pre)%list, msg, attrs. rewrite app_assoc. auto.
Qed.

Lemma ExitCause_cons c e t : ExitCause c t -> ExitCause c (e :: t).
Proof. exact (ExitCause_app c [e] t). Qed.

Lemma ExitCause_call c e : stopped e = Some (Exited c) -> ExitCause c [e].
Proof. intros Hs. left. exists [], e. auto. Qed.

Lemma ExitCause_info c msg attrs : announced c msg -> ExitCause c [info msg attrs].
Proof. intros Ha. right. exists [], msg, attrs. auto. Qed.

Lemma stop_Exited {A} (r : Outcome A) c :
  is_returned r = false -> @stop A unit r = Exited c -> r = Exited c.
Proof. destruct r; simpl; intros; congruence. Qed.

Lemma stop_Panicked {A} (r : Outcome A) e :
  is_returned r = false -> @stop A unit r = Panicked e -> r = Panicked e.
Proof. destruct r; simpl; intros; congruence. Qed.

Lemma Gate_ExitCause hosts c t : Gate hosts (Exited c) t -> ExitCause c t.
Proof.
  remember (Exited c) as o eqn:Ho.
  induction 1 as [| h hosts o t G IH | h hosts e | h hosts r Hr].
  - discriminate.
  - apply ExitCause_cons. exact (IH Ho).
  - injection Ho as <-. apply ExitCause_cons. apply ExitCause_info.
    unfold announced. simpl. tauto.
  - apply ExitCause_call. simpl. rewrite Hr, Ho. reflexivity.
Qed.

Lemma Upgrade_ExitCause conf spec c t : Upgrade conf spec (Exited c) t -> ExitCause c t.
Proof.
  intros H. inversion H as [r Hr Ho | | r Hflag]; subst.
  - apply ExitCause_cons. apply ExitCause_call. simpl. rewrite Hr, Ho. reflexivity.
  - do 4 apply ExitCause_cons. apply ExitCause_call. reflexivity.
Qed.

Lemma Path_ExitCause conf c tr : Path conf (Exited c) tr -> ExitCause c tr.
Proof.
  intros HP.
  inversion HP as [r Hr Ho | b0 Hfin | b0 Hfin Hst | b0 r Hfin Hst Hr Ho
                   | b0 eval o' t Hfin Hst HC]; subst.
  - apply ExitCause_call. simpl. rewrite Hr, Ho. reflexivity.
  - apply ExitCause_cons. apply ExitCause_info. unfold announced. simpl. tauto.
  - apply ExitCause_cons. apply ExitCause_info. unfold announced. simpl. tauto.
  - apply ExitCause_cons. apply ExitCause_call. simpl. rewrite Hr, Ho. reflexivity.
  - do 2 apply ExitCause_cons.
    inversion HC as [| | s ts t' tt_ o'' td HF1 HF2 HD]; subst.
    do 3 apply ExitCause_app.
    inversion HD as [Hle | o3 t3 Hlt HG Hno | tg o3 tu Hlt HG HU]; subst.
    + apply ExitCause_info. unfold announced. simpl. tauto.
    + exact (Gate_ExitCause _ _ _ HG).
    + apply ExitCause_app. exact (Upgrade_ExitCause _ _ _ _ HU).
Qed.

(** X6. A run that ends in an exit ends in one of two ways.  Either its
    last event is a call that exited with that status, or [Run] exited
    itself, and then the last event is the Info record that says why: exit
    status 0 for an unfinished build and for a system already up to date,
    exit status 1 for an unsuccessful build and for a failed probe. *)
Theorem exit_is_announced {W} (env : Env W) conf p c p' tr :
  Run env conf p = (Exited c, p', tr) ->
  (exists pre e, tr = (pre ++ [e])%list /\ stopped e = Some (Exited c))
  \/ (exists pre msg attrs,
        tr = (pre ++ [info msg attrs])%list
        /\ In (c, msg)
             [(0, "Latest build unfinished. Exiting.");
              (1, "Latest build unsuccessful. Exiting.");
              (0, "System is already up to date. Exiting.");
              (1, "Ping healthcheck failed. Exiting.")]).
Proof. intros HR. apply Run_Path in HR. exact (Path_ExitCause _ _ _ HR). Qed.

Lemma PanicCause_app e t1 t2 : PanicCause e t2 -> PanicCause e (t1 ++ t2).
Proof.
  intros [(pre & ev & -> & Hs) | (pre & cmd & output & err & post & -> & Hf & Ho)].
  - left. exists (t1 ++ pre)%list, ev. rewrite app_assoc. auto.
  - right. exists (t1 ++ pre)%list, cmd, output, err, post. rewrite app_assoc. auto.
Qed.

Lemma PanicCause_cons e ev t : PanicCause e t -> PanicCause e (ev :: t).
Proof. exact (PanicCause_app e [ev] t). Qed.

Lemma PanicCause_call e ev : stopped ev = Some (Panicked e) -> PanicCause e [ev].
Proof. intros Hs. left. exists [], ev. auto. Qed.

Lemma Fetch_PanicCause d f e t : Fetch d f (Panicked e) t -> PanicCause e t.
Proof.
  intros H. inversion H as [output e0 | output m e0 U |]; subst; right.
  - exists [], (nix_flake_metadata f), output, (Some e),
      (dbg d "" [slog.String "output" output]).
    split; [reflexivity |]. split; [reflexivity | apply only_dbg].
  - exists [], (nix_flake_metadata f), output, None, [].
    split; [reflexivity |]. split; [unfold failure; rewrite U; reflexivity | only_list].
Qed.

Lemma Gate_PanicCause hosts e t : Gate hosts (Panicked e) t -> PanicCause e t.
Proof.
  remember (Panicked e) as o eqn:Ho.
  induction 1 as [| h hosts o t G IH | h hosts e0 | h hosts r Hr].
  - discriminate.
  - apply PanicCause_cons. exact (IH Ho).
  - discriminate.
  - apply PanicCause_call. simpl. rewrite Hr, Ho. reflexivity.
Qed.

Lemma Upgrade_PanicCause conf spec e t : Upgrade conf spec (Panicked e) t -> PanicCause e t.
Proof.
  intros H. inversion H as [r Hr Ho | | r Hflag]; subst.
  - apply PanicCause_cons. apply PanicCause_call. simpl. rewrite Hr, Ho. reflexivity.
  - do 4 apply PanicCause_cons. apply PanicCause_call. reflexivity.
Qed.

Lemma Path_PanicCause conf e tr : Path conf (Panicked e) tr -> PanicCause e tr.
Proof.
  intros HP.
  inversion HP as [r Hr Ho | b0 Hfin | b0 Hfin Hst | b0 r Hfin Hst Hr Ho
                   | b0 eval o' t Hfin Hst HC]; subst.
  - apply PanicCause_call. simpl. rewrite Hr, Ho. reflexivity.
  - apply PanicCause_cons. apply PanicCause_call. simpl. rewrite Hr, Ho. reflexivity.
  - do 2 apply PanicCause_cons.
    inversion HC as [e0 ts HF | s ts e0 tt_ HF1 HF2 | s ts t' tt_ o'' td HF1 HF2 HD]; subst.
    + exact (Fetch_PanicCause _ _ _ _ HF).
    + do 2 apply PanicCause_app. exact (Fetch_PanicCause _ _ _ _ HF2).
    + do 3 apply PanicCause_app.
      inversion HD as [Hle | o3 t3 Hlt HG Hno | tg o3 tu Hlt HG HU]; subst.
      * exact (Gate_PanicCause _ _ _ HG).
      * apply PanicCause_app. exact (Upgrade_PanicCause _ _ _ _ HU).
Qed.

(** X7. A run that ends in a panic ends in one of two ways.  Either its
    last event is a call that panicked with that error, or the error is
    that of a metadata command (the command failed, or its output did not
    decode), and then nothing but log records follows the command. *)
Theorem panic_has_a_cause {W} (env : Env W) conf p e p' tr :
  Run env conf p = (Panicked e, p', tr) ->
  (exists pre ev, tr = (pre ++ [ev])%list /\ stopped ev = Some (Panicked e))
  \/ (exists pre cmd output err post,
        tr = (pre ++ EvOutput cmd output err :: post)%list
        /\ failure output err = Some e
        /\ only [KLog] post).
Proof. intros HR. apply Run_Path in HR. exact (Path_PanicCause _ _ _ HR). Qed.

(** X8. [Run] returns to its caller only after a completed upgrade: both
    metadata were fetched with the target strictly newer, every call
    returned, the rebuild was called on the target and returned, and the
    last event is the reboot, which returned, when the reboot flag is set,
    and the record of the completed upgrade otherwise. *)
Theorem return_means_upgraded {W} (env : Env W) conf p p' tr :
  Run env conf p = (Returned tt, p', tr) ->
  exists s t pre,
    fetched tr = [s; t]
    /\ LastModified s < LastModified t
    /\ quiet tr
    /\ In (EvNixosRebuild (config.Operation (config.NixOSRebuild conf))
             (OriginalUrl t ++ "#" ++ config.Host (config.NixOSRebuild conf))
             (config.Args (config.NixOSRebuild conf)) (Returned tt)) tr
    /\ tr = (pre ++ [if config.Reboot conf
                     then EvReboot (Returned tt)
                     else info "System upgrade complete."
                            [slog.String "flake"
                               (OriginalUrl t ++ "#"
                                  ++ config.Host (config.NixOSRebuild conf))]])%list.
Proof.
  intros HR. apply Run_Path in HR.
  inversion HR as [r Hr Ho | | | b0 r Hfin Hst Hr Ho | b0 eval o' t0 Hfin Hst HC]; subst;
    try (destruct r; simpl in *; discriminate).
  inversion HC as [| | s ts t tt_ o'' td HF1 HF2 HD]; subst.
  inversion HD as [| o3 t3 Hlt HG Hno | tg o3 tu Hlt HG HU]; subst; [congruence |].
  pose proof (only_dbg (config.Debug conf) "hydraMetadata"
                [slog.String "flake" (hydra.Flake eval)]) as Hd.
  pose proof (Gate_only _ _ _ HG) as Hg.
  pose proof (Upgrade_only _ _ _ _ HU) as Hu.
  assert (quiet (ts ++ dbg (config.Debug conf) "hydraMetadata"
                         [slog.String "flake" (hydra.Flake eval)] ++ tt_ ++ tg)) as Hq.
  { repeat apply quiet_app;
      first [exact (Fetch_quiet _ _ _ _ HF1) | exact (Fetch_quiet _ _ _ _ HF2)
            | apply quiet_dbg | exact (Gate_pass_quiet _ _ HG)]. }
  set (spec := OriginalUrl t ++ "#" ++ config.Host (config.NixOSRebuild conf)) in *.
  assert (forall tu', quiet tu' ->
            quiet (EvGetLatestBuild (hydraClient_of conf) (Returned b0)
                   :: EvGetEval (hydraClient_of conf) b0 (Returned eval)
                   :: ts ++ dbg (config.Debug conf) "hydraMetadata"
                              [slog.String "flake" (hydra.Flake eval)]
                        ++ tt_ ++ tg ++ tu')) as Hall.
  { intros tu' Hq'. do 2 (constructor; [reflexivity |]).
    replace (ts ++ dbg (config.Debug conf) "hydraMetadata"
                     [slog.String "flake" (hydra.Flake eval)] ++ tt_ ++ tg ++ tu')%list
      with ((ts ++ dbg (config.Debug conf) "hydraMetadata"
                      [slog.String "flake" (hydra.Flake eval)] ++ tt_ ++ tg) ++ tu')%list
      by (rewrite <- !app_assoc; reflexivity).
    apply quiet_app; assumption. }
  exists s, t.
  assert (fetched (EvGetLatestBuild (hydraClient_of conf) (Returned b0)
                   :: EvGetEval (hydraClient_of conf) b0 (Returned eval)
                   :: ts ++ dbg (config.Debug conf) "hydraMetadata"
                              [slog.String "flake" (hydra.Flake eval)]
                        ++ tt_ ++ tg ++ tu) = [s; t]) as Hf.
  { simpl. rewrite !fetched_app, (Fetch_fetched _ _ _ _ HF1), (Fetch_fetched _ _ _ _ HF2),
      fetched_dbg, (fetched_none _ _ Hg), (fetched_none _ _ Hu); [reflexivity | kinds | kinds]. }
  inversion HU as [r Hr Ho | Hflag | r Hflag]; subst.
  - destruct r; simpl in *; discriminate.
  - rewrite Hflag.
    exists (EvGetLatestBuild (hydraClient_of conf) (Returned b0)
            :: EvGetEval (hydraClient_of conf) b0 (Returned eval)
            :: ts ++ dbg (config.Debug conf) "hydraMetadata"
                       [slog.String "flake" (hydra.Flake eval)]
                 ++ tt_ ++ tg
                 ++ [info "Performing system upgrade." [slog.String "flake" spec];
                     EvNixosRebuild (config.Operation (config.NixOSRebuild conf)) spec
                       (config.Args (config.NixOSRebuild conf)) (Returned tt)])%list.
    split; [exact Hf |]. split; [exact Hlt |]. split; [apply Hall; repeat constructor |].
    split.
    + do 2 right. do 4 (apply in_or_app; right). right. left. reflexivity.
    + simpl. rewrite <- !app_assoc. reflexivity.
  - rewrite Hflag.
    exists (EvGetLatestBuild (hydraClient_of conf) (Returned b0)
            :: EvGetEval (hydraClient_of conf) b0 (Returned eval)
            :: ts ++ dbg (config.Debug conf) "hydraMetadata"
                       [slog.String "flake" (hydra.Flake eval)]
                 ++ tt_ ++ tg
                 ++ [info "Performing system upgrade." [slog.String "flake" spec];
                     EvNixosRebuild (config.Operation (config.NixOSRebuild conf)) spec
                       (config.Args (config.NixOSRebuild conf)) (Returned tt);
                     info "System upgrade complete." [slog.String "flake" spec];
                     info "Initiating reboot" []])%list.
    split; [exact Hf |]. split; [exact Hlt |]. split; [apply Hall; repeat constructor |].
    split.
    + do 2 right. do 4 (apply in_or_app; right). right. left. reflexivity.
    + simpl. rewrite <- !app_assoc. reflexivity.
Qed.

(** ** The metadata decoded *)








Lemma object_known ms :
  forall m saved, json.object ms m saved = json.object (filter known ms) m saved.
Proof.
  induction ms as [|[k v] ms IH]; intros m saved; simpl; [reflexivity |].
  unfold known at 1. simpl. destruct (json.lookup_field k) as [f|] eqn:L; simpl.
  - rewrite L. destruct (json.store f v m) as [m1 e1]. apply IH.
  - apply IH.
Qed.

(** X10. The metadata depends only on the members of the printed object
    that select [lastModified] or [originalUrl]: two outputs that are
    objects with the same such members, in the same order, give the same
    result, whatever else they hold. *)
Theorem other_members_are_ignored {W} (env1 env2 : Env W) flake1 flake2 p1 p2
    output1 output2 w1 w2 ms1 ms2 :
  exec_Output env1 (nix_flake_metadata flake1) (world p1) = ((output1, None), w1) ->
  exec_Output env2 (nix_flake_metadata flake2) (world p2) = ((output2, None), w2) ->
  json.parse output1 = Some (json.Object ms1) ->
  json.parse output2 = Some (json.Object ms2) ->
  filter known ms1 = filter known ms2 ->
  fst (fst (GetFlakeMetadata env1 flake1 p1)) = fst (fst (GetFlakeMetadata env2 flake2 p2)).
Proof.
  intros E1 E2 P1 P2 Hk.
  destruct (GetFlakeMetadata_outcome env1 flake1 p1 output1 None w1 E1) as [-> _].
  destruct (GetFlakeMetadata_outcome env2 flake2 p2 output2 None w2 E2) as [-> _].
  unfold json.Unmarshal. rewrite P1, P2. simpl.
  rewrite (object_known ms1), (object_known ms2), Hk. reflexivity.
Qed.

(** ** The usage string of a flag *)

Lemma length_append (a b : string) : String.length (a ++ b) = (String.length a + String.length b)%nat.
Proof. induction a as [|c a IH]; simpl; [reflexivity | rewrite IH; reflexivity]. Qed.

Lemma append_assoc (a b c : string) : (a ++ b) ++ c = a ++ (b ++ c).
Proof. induction a as [|x a IH]; simpl; [reflexivity | rewrite IH; reflexivity]. Qed.

Lemma length_spaces n : String.length (spaces n) = n.
Proof. induction n as [|n IH]; simpl; [reflexivity | rewrite IH; reflexivity]. Qed.

Lemma RuneCount_ascii s : is_ascii s = true -> RuneCountInString s = String.length s.
Proof.
  unfold RuneCountInString. induction s as [|c s IH]; simpl; [reflexivity |].
  intros H. apply andb_prop in H. destruct H as [Hc Hs].
  rewrite Hc, (IH Hs). reflexivity.
Qed.

Lemma prefix_append (a b : string) : prefix a (a ++ b) = true.
Proof.
  induction a as [|c a IH]; simpl.
  - destruct b; reflexivity.
  - destruct (ascii_dec c c) as [_ | N]; [exact IH | contradiction].
Qed.

(** X11. For a key and an environment variable name in ASCII, of at most
    27 and 28 bytes, the first line of the usage string is laid out in
    columns: the key is padded so that [ENV: ] starts at byte 33, the name
    so that the required mark, or the end of the line, comes at byte 66;
    the usage text is the second line. *)
Theorem flagUsage_is_aligned (GetEnv : string -> string) viperKey usage required :
  is_ascii viperKey = true ->
  (String.length viperKey <= 27)%nat ->
  is_ascii (GetEnv viperKey) = true ->
  (String.length (GetEnv viperKey) <= 28)%nat ->
  let yaml := "YAML: " ++ viperKey ++ spaces (27 - String.length viperKey) in
  let env := "ENV: " ++ GetEnv viperKey ++ spaces (28 - String.length (GetEnv viperKey)) in
  flagUsage GetEnv viperKey usage required
  = yaml ++ env ++ (if required then " (required)" else "") ++ newline ++ usage
  /\ String.length yaml = 33%nat
  /\ String.length env = 33%nat.
Proof.
  intros Ha Hl Hea Hel yaml env. unfold flagUsage, pad_right.
  rewrite (RuneCount_ascii _ Ha), (RuneCount_ascii _ Hea).
  split; [| split].
  - unfold yaml, env. rewrite !append_assoc. reflexivity.
  - unfold yaml. rewrite !length_append, length_spaces.
    change (String.length "YAML: ") with 6%nat. lia.
  - unfold env. rewrite !length_append, length_spaces.
    change (String.length "ENV: ") with 5%nat. lia.
Qed.

Lemma append_nil_r (a : string) : a ++ "" = a.
Proof. induction a as [|c a IH]; simpl; [reflexivity | rewrite IH; reflexivity]. Qed.

(** X12. The usage string never cuts a key: it starts with [YAML: ] and
    the key in full, and a key of 27 runes or more is followed by [ENV: ]
    with no space between. *)
Theorem flagUsage_never_cuts (GetEnv : string -> string) viperKey usage required :
  prefix ("YAML: " ++ viperKey) (flagUsage GetEnv viperKey usage required) = true
  /\ ((27 <= RuneCountInString viperKey)%nat ->
      prefix ("YAML: " ++ viperKey ++ "ENV: ")
        (flagUsage GetEnv viperKey usage required) = true).
Proof.
  unfold flagUsage, pad_right.
  set (rest := "ENV: " ++ (GetEnv viperKey
                 ++ spaces (28 - RuneCountInString (GetEnv viperKey)))
                 ++ (if required then " (required)" else "") ++ newline ++ usage).
  split.
  - assert ("YAML: " ++ (viperKey ++ spaces (27 - RuneCountInString viperKey)) ++ rest
            = ("YAML: " ++ viperKey) ++ spaces (27 - RuneCountInString viperKey) ++ rest) as ->
      by (rewrite !append_assoc; reflexivity).
    apply prefix_append.
  - intros H. replace (27 - RuneCountInString viperKey)%nat with O by lia.
    simpl spaces. rewrite append_nil_r. unfold rest.
    set (tail := (GetEnv viperKey ++ spaces (28 - RuneCountInString (GetEnv viperKey)))
                   ++ (if required then " (required)" else "") ++ newline ++ usage).
    assert ("YAML: " ++ viperKey ++ "ENV: " ++ tail
            = ("YAML: " ++ viperKey ++ "ENV: ") ++ tail) as ->
      by (rewrite !append_assoc; reflexivity).
    apply prefix_append.
Qed.

(** ** The command around [Run] *)

(** X13. The root command accepts no argument, or the one argument
    [boot] or [switch], and nothing else.  The count is checked first: two
    arguments or more are refused for their number even when one of them
    is not valid, and a single other argument is refused as invalid. *)
Theorem Args_accepts_boot_or_switch (args : list string) :
  (Args args = None <-> args = [] \/ args = ["boot"] \/ args = ["switch"])
  /\ ((2 <= List.length args)%nat ->
      Args args = Some (cobra.TooManyArgs 1 (List.length args)))
  /\ (forall a, a <> "boot" -> a <> "switch" -> Args [a] = Some (cobra.InvalidArg a)).
Proof.
  split; [| split].
  - destruct args as [|a [|b rest]].
    + split; [auto | reflexivity].
    + unfold Args. simpl. unfold cobra.OnlyValidArgs, cobra.stringInSlice. simpl.
      destruct (String.eqb_spec a "boot") as [-> | Nb]; simpl.
      * split; [auto | reflexivity].
      * destruct (String.eqb_spec a "switch") as [-> | Ns]; simpl.
        -- split; [auto | reflexivity].
        -- split; [discriminate |].
           intros [E | [E | E]]; try discriminate; injection E as E; contradiction.
    + split; [discriminate |]. intros [E | [E | E]]; discriminate.
  - intros H. destruct args as [|a [|b rest]]; simpl in H; try lia. reflexivity.
  - intros a Nb Ns. unfold Args. simpl. unfold cobra.OnlyValidArgs, cobra.stringInSlice.
    simpl. destruct (String.eqb_spec a "boot"); [contradiction |].
    destruct (String.eqb_spec a "switch"); [contradiction |]. reflexivity.
Qed.

(** X14. [Run] is executed only when the arguments are valid, the version
    flag is not set, [InitializeConfig] succeeded and [Validate] accepted
    its result; it then runs on that validated configuration, in the world
    the two calls left, and nothing else was done before it. *)
Theorem Run_only_on_a_validated_configuration {W} (penv : PreEnv W) (env : Env W)
    args g p g1 pt r :
  Execute penv env args g p = Ran g1 pt r ->
  (args = [] \/ args = ["boot"] \/ args = ["switch"])
  /\ flagVersion g = false
  /\ exists w1 w2,
      config_InitializeConfig penv args (world p) = ((conf g1, None), w1)
      /\ config_Validate penv (conf g1) w1 = (None, w2)
      /\ pt = [PrInitializeConfig args (conf g1) None; PrValidate (conf g1) None]
      /\ r = Run env (conf g1) {| world := w2; logLevel := logLevel p |}.
Proof.
  unfold Execute. intros H.
  destruct (Args args) as [err|] eqn:HA; [discriminate |].
  split; [exact (proj1 (proj1 (Args_accepts_boot_or_switch args)) HA) |].
  unfold PreRunE in H. destruct (flagVersion g) eqn:HV; [discriminate |].
  split; [reflexivity |].
  destruct (config_InitializeConfig penv args (world p)) as [[c err] w1] eqn:HI.
  destruct err as [e|]; [discriminate |].
  destruct (config_Validate penv c w1) as [verr w2] eqn:HVal.
  destruct verr as [e|]; [discriminate |].
  injection H as <- <- <-. simpl. exists w1, w2. auto.
Qed.

(** ** The further properties on the example scenarios *)

(** Scenario: the rebuild panics; it is the last event, and the run ends
    with its panic. *)
Lemma call_that_ends_the_process_is_last_witness :
  let r := Run env_rebuild_panics (demo_conf ["host1"] true) start in
  skipn 7 (snd r) = [] /\ fst (fst r) = Panicked (ExitError 1).
Proof.
  intro r.
  assert (snd r
          = (firstn 6 (snd r)
             ++ EvNixosRebuild "boot" "github:example/flake#myhost" ["--verbose"]
                  (Panicked (ExitError 1))
             :: skipn 7 (snd r))%list) as Hsplit by (vm_compute; reflexivity).
  exact (call_that_ends_the_process_is_last env_rebuild_panics (demo_conf ["host1"] true)
           start (fst (fst r)) (snd (fst r)) (snd r) _ _ _ _ (run_eta r) Hsplit eq_refl).
Defined.

(** Scenario: target newer; the evaluation queried is that of the build
    returned. *)
Lemma evaluation_is_of_the_successful_build_witness :
  let r := Run env_newer (demo_conf ["host1"] false) start in
  hydra.Finished ok_build = 1 /\ hydra.BuildStatus ok_build = 0.
Proof.
  intro r.
  assert (In (EvGetEval demo_client ok_build
                (Returned {| hydra.Flake := "github:example/flake" |})) (snd r)) as Hin
    by (vm_compute; right; left; reflexivity).
  pose proof (evaluation_is_of_the_successful_build env_newer (demo_conf ["host1"] false)
                start (fst (fst r)) (snd (fst r)) (snd r) _ _ _ (run_eta r) Hin) as H.
  exact (conj (proj1 (proj2 H)) (proj1 (proj2 (proj2 H)))).
Defined.

(** Scenario: target newer, debug logging on; the metadata of the target
    is logged at Debug level. *)
Lemma log_level_follows_the_configuration_witness :
  let r := Run env_newer (demo_conf_debug ["host1"] false) start in
  In (EvLog slog.LevelDebug (Sprintf_plus_v (meta 200)) []) (snd r).
Proof.
  intro r.
  assert (In (meta 200) (fetched (snd r))) as Hin
    by (vm_compute; right; left; reflexivity).
  pose proof (log_level_follows_the_configuration env_newer
                (demo_conf_debug ["host1"] false) start
                (fst (fst r)) (snd (fst r)) (snd r) (run_eta r)) as H.
  exact (proj2 H eq_refl (meta 200) Hin).
Defined.

(** Scenario: self and target both at 100; the exit with 0 is announced
    by the last record. *)
Lemma exit_is_announced_witness :
  let r := Run env_up_to_date (demo_conf ["host1"] true) start in
  (exists pre e, snd r = (pre ++ [e])%list /\ stopped e = Some (Exited 0))
  \/ (exists pre msg attrs,
        snd r = (pre ++ [info msg attrs])%list
        /\ In (0, msg)
             [(0, "Latest build unfinished. Exiting.");
              (1, "Latest build unsuccessful. Exiting.");
              (0, "System is already up to date. Exiting.");
              (1, "Ping healthcheck failed. Exiting.")]).
Proof.
  intro r.
  assert (Run env_up_to_date (demo_conf ["host1"] true) start
          = (Exited 0, snd (fst r), snd r)) as HR by (vm_compute; reflexivity).
  exact (exit_is_announced env_up_to_date (demo_conf ["host1"] true) start 0
           (snd (fst r)) (snd r) HR).
Defined.

(** Scenario: the command for the target prints an open brace; the panic
    is the syntax error of that output. *)
Lemma panic_has_a_cause_witness :
  let r := Run env_bad_target (demo_conf ["host1"] true) start in
  (exists pre ev, snd r = (pre ++ [ev])%list /\ stopped ev = Some (Panicked SyntaxError))
  \/ (exists pre cmd output err post,
        snd r = (pre ++ EvOutput cmd output err :: post)%list
        /\ failure output err = Some SyntaxError
        /\ only [KLog] post).
Proof.
  intro r.
  assert (Run env_bad_target (demo_conf ["host1"] true) start
          = (Panicked SyntaxError, snd (fst r), snd r)) as HR by (vm_compute; reflexivity).
  exact (panic_has_a_cause env_bad_target (demo_conf ["host1"] true) start SyntaxError
           (snd (fst r)) (snd r) HR).
Defined.

(** Scenario: target newer, host alive, no reboot; the run returns after
    the rebuild. *)
Lemma return_means_upgraded_witness :
  let r := Run env_newer (demo_conf ["host1"] false) start in
  exists s t, fetched (snd r) = [s; t] /\ LastModified s < LastModified t.
Proof.
  intro r.
  assert (Run env_newer (demo_conf ["host1"] false) start
          = (Returned tt, snd (fst r), snd r)) as HR by (vm_compute; reflexivity).
  destruct (return_means_upgraded env_newer (demo_conf ["host1"] false) start
              (snd (fst r)) (snd r) HR) as (s & t & pre & Hf & Hlt & _).
  exact (ex_intro _ s (ex_intro _ t (conj Hf Hlt))).
Defined.


(** Scenario: the same two fields, alone and among other members; the
    same metadata. *)
Lemma other_members_are_ignored_witness :
  fst (fst (GetFlakeMetadata env_newer "self" start))
  = fst (fst (GetFlakeMetadata
                (demo_env ok_build (json_with_extras, None) (json_with_extras, None) [])
                "self" start)).
Proof.
  assert (exec_Output env_newer (nix_flake_metadata "self") (world start)
          = ((fst (meta_json "100"), None), 1%nat)) as E1 by (vm_compute; reflexivity).
  assert (exec_Output (demo_env ok_build (json_with_extras, None) (json_with_extras, None) [])
            (nix_flake_metadata "self") (world start)
          = ((json_with_extras, None), 1%nat)) as E2 by (vm_compute; reflexivity).
  assert (json.parse (fst (meta_json "100"))
          = Some (json.Object [("lastModified", json.Number "100");
                               ("originalUrl", json.Str "github:example/flake")])) as P1
    by (vm_compute; reflexivity).
  assert (json.parse json_with_extras
          = Some (json.Object [("description", json.Str "a flake");
                               ("lastModified", json.Number "100");
                               ("locks", json.Object [("version", json.Number "7")]);
                               ("originalUrl", json.Str "github:example/flake");
                               ("revCount", json.Number "12")])) as P2
    by (vm_compute; reflexivity).
  assert (filter known [("lastModified", json.Number "100");
                        ("originalUrl", json.Str "github:example/flake")]
          = filter known [("description", json.Str "a flake");
                          ("lastModified", json.Number "100");
                          ("locks", json.Object [("version", json.Number "7")]);
                          ("originalUrl", json.Str "github:example/flake");
                          ("revCount", json.Number "12")]) as Hk
    by (vm_compute; reflexivity).
  exact (other_members_are_ignored _ _ _ _ _ _ _ _ _ _ _ _ E1 E2 P1 P2 Hk).
Defined.

(** Scenario: the key [hydra.instance] with the variable
    [NHU_HYDRA_INSTANCE]; both columns are 33 bytes wide. *)
Lemma flagUsage_is_aligned_witness :
  flagUsage (fun _ => "NHU_HYDRA_INSTANCE") "hydra.instance" "Hydra instance" true
  = ("YAML: hydra.instance             " ++ "ENV: NHU_HYDRA_INSTANCE          "
       ++ " (required)" ++ newline ++ "Hydra instance").
Proof.
  assert (is_ascii "hydra.instance" = true) as Ha by (vm_compute; reflexivity).
  assert (String.length "hydra.instance" <= 27)%nat as Hl by (vm_compute; lia).
  assert (is_ascii "NHU_HYDRA_INSTANCE" = true) as Hea by (vm_compute; reflexivity).
  assert (String.length "NHU_HYDRA_INSTANCE" <= 28)%nat as Hel by (vm_compute; lia).
  exact (proj1 (flagUsage_is_aligned (fun _ => "NHU_HYDRA_INSTANCE") "hydra.instance"
                  "Hydra instance" true Ha Hl Hea Hel)).
Defined.

(** Scenario: the argument [boot], no version flag, a configuration that
    is accepted; [Run] is executed on it. *)
Lemma Run_only_on_a_validated_configuration_witness :
  flagVersion demo_globals = false.
Proof.
  assert (Execute demo_penv env_newer ["boot"] demo_globals start
          = Ran {| Version := "development"; conf := demo_conf ["host1"] false;
                   flagVersion := false |}
                [PrInitializeConfig ["boot"] (demo_conf ["host1"] false) None;
                 PrValidate (demo_conf ["host1"] false) None]
                (Run env_newer (demo_conf ["host1"] false)
                   {| world := 2%nat; logLevel := slog.LevelInfo |})) as HE
    by (vm_compute; reflexivity).
  exact (proj1 (proj2 (Run_only_on_a_validated_configuration _ _ _ _ _ _ _ _ HE))).
Defined.
